(** * Flipkart sales analysis: the cleaning pipeline of [analysis.py]

    A shallow embedding of the script's data path: the frame read from the
    catalogue file, the column projection, the row filters, the derived
    columns, the two top-10 rankings and the cleaned table written back.
    The plotting calls and the per-category averages of line 107, which
    feed one chart, only read the frame and are left out.

    Conventions of the model.
    - A cell is a Python object as pandas holds it after [read_csv]: a
      float64 number or a string.  A missing value is the float NaN, as in
      pandas.  Whole numbers are held as the float64 of the same value
      (the price, rating and length columns of the script are numeric
      columns; an integer column and a float column agree on every value
      below 2^53).
    - float64 arithmetic is IEEE 754 binary64, taken from the standard
      library's [SpecFloat] (precision 53, maximal exponent 1024).
    - A string is the sequence of its characters.
    - A frame is its ordered column labels and its rows; each row carries
      the index label [read_csv] gave it.  A row maps a column label to
      its cell; only labels listed in [columns] are ever read.
    - A Python exception ends the script: every operation that can raise
      returns a [result].
    - In-place updates through a column accessor write to the frame
      (pandas semantics before copy-on-write, which the script relies on
      at [df['description'].fillna('', inplace=True)]).
    - pandas keeps a dtype for every column, and a column keeps it when
      rows are removed, so the rows of a frame do not determine it.  The
      script depends on a dtype at one place, the [.str] accessor of
      line 95; the model follows the dtype of that one column, from
      [read_csv] through the fill of line 29. *)

From Stdlib Require Import ZArith Lia Bool List String Ascii Arith PeanoNat.
From Stdlib Require Import Sorting.Sorted Sorting.Permutation.
From Stdlib Require Import Floats.SpecFloat.
From Stdlib Require DecimalString.
Import ListNotations.

Local Open Scope string_scope.
Local Open Scope list_scope.

(** ** float64 *)

Module F64.

Definition prec : Z := 53.
Definition emax : Z := 1024.

Definition float := spec_float.

Definition nan : float := S754_nan.
Definition zero : float := S754_zero false.
Definition inf : float := S754_infinity false.

Definition sub : float -> float -> float := SFsub prec emax.
Definition div : float -> float -> float := SFdiv prec emax.
Definition mul : float -> float -> float := SFmul prec emax.
Definition ltb : float -> float -> bool := SFltb.
Definition eqb : float -> float -> bool := SFeqb.

(** Conversion of an integer, rounding to nearest even. *)
Definition of_Z (z : Z) : float := binary_normalize prec emax z 0 false.
Definition of_nat (n : nat) : float := of_Z (Z.of_nat n).

Definition is_nan (x : float) : bool :=
  match x with S754_nan => true | _ => false end.

Definition is_zero (x : float) : bool :=
  match x with S754_zero _ => true | _ => false end.

Definition is_finite (x : float) : bool :=
  match x with S754_zero _ | S754_finite _ _ _ => true | _ => false end.

(** A float64 value: a canonical mantissa and an exponent in range. *)
Definition valid (x : float) : bool := valid_binary prec emax x.

(** The scalar [100] of the discount formula. *)
Definition hundred : float := Eval vm_compute in of_Z 100.

End F64.

Definition float : Type := F64.float.

(** ** Python values, exceptions *)

Inductive cell : Type :=
| Num (x : float)
| Str (s : string).

Inductive error : Type :=
| KeyError (label : string)
| TypeError
| AttributeError
| ValueError
| IndexError.

Inductive result (A : Type) : Type :=
| Ok (a : A)
| Err (e : error).

Arguments Ok {A} a.
Arguments Err {A} e.

Definition bind {A B : Type} (m : result A) (k : A -> result B) : result B :=
  match m with
  | Ok a => k a
  | Err e => Err e
  end.

Declare Scope result_scope.
Delimit Scope result_scope with result.
Notation "x <- m ;; k" := (bind m (fun x => k))
  (at level 61, m at next level, right associativity) : result_scope.
Notation "m ;;; k" := (bind m (fun _ => k))
  (at level 61, right associativity) : result_scope.
Local Open Scope result_scope.

Fixpoint mapM {A B : Type} (f : A -> result B) (l : list A) : result (list B) :=
  match l with
  | [] => Ok []
  | a :: l' => b <- f a ;; bs <- mapM f l' ;; Ok (b :: bs)
  end.

(** [pd.isna] on one value. *)
Definition isna (v : cell) : bool :=
  match v with
  | Num x => F64.is_nan x
  | Str _ => false
  end.

(** ** Strings: [str.split], [s[0]], [s[n:]], [len] *)

Module Py.

(** [s[n:]] *)
Fixpoint slice_from (n : nat) (s : string) : string :=
  match n, s with
  | O, _ => s
  | S _, EmptyString => EmptyString
  | S n', String _ s' => slice_from n' s'
  end.

(** [split_go sep skip cur s]: [cur] is the segment read so far, [skip]
    the number of characters of a matched separator still to pass. *)
Fixpoint split_go (sep : string) (skip : nat) (cur : string) (s : string)
  : list string :=
  match s with
  | EmptyString => [cur]
  | String c s' =>
      match skip with
      | S k => split_go sep k cur s'
      | O =>
          if String.prefix sep s
          then cur :: split_go sep (String.length sep - 1) EmptyString s'
          else split_go sep 0 (String.append cur (String c EmptyString)) s'
      end
  end.

(** [s.split(sep)]; an empty separator raises [ValueError]. *)
Definition split (sep s : string) : result (list string) :=
  match sep with
  | EmptyString => Err ValueError
  | _ => Ok (split_go sep 0 EmptyString s)
  end.

(** [l[0]] *)
Definition first {A : Type} (l : list A) : result A :=
  match l with
  | [] => Err IndexError
  | a :: _ => Ok a
  end.

End Py.

(** ** Frames *)

Definition row : Type := string -> cell.

Record DataFrame : Type := {
  columns : list string;
  rows : list (nat * row)
}.

(** The parsed input file: a header and the records below it. *)
Record table : Type := {
  t_columns : list string;
  t_rows : list row
}.

(** The written file: a header line and one record of fields per row. *)
Record csv_file : Type := {
  header : list string;
  records : list (list string)
}.

(** [pd.read_csv]: the rows get the labels [0 .. n-1]. *)
Definition read_csv (t : table) : DataFrame :=
  {| columns := t_columns t;
     rows := combine (seq 0 (List.length (t_rows t))) (t_rows t) |}.

Definition mem (c : string) (l : list string) : bool :=
  existsb (String.eqb c) l.

Definition set_cell (c : string) (v : cell) (r : row) : row :=
  fun c' => if String.eqb c' c then v else r c'.

(** Reading a column checks its label. *)
Definition require (c : string) (df : DataFrame) : result unit :=
  if mem c (columns df) then Ok tt else Err (KeyError c).

Fixpoint require_all (cs : list string) (df : DataFrame) : result unit :=
  match cs with
  | [] => Ok tt
  | c :: cs' => require c df ;;; require_all cs' df
  end.

(** The column [df[c]] as a list of values, in row order. *)
Definition column (c : string) (df : DataFrame) : list cell :=
  map (fun ir => snd ir c) (rows df).

Definition labels (df : DataFrame) : list nat := map fst (rows df).

(** [df.drop(ls, axis=1, inplace=True)] *)
Definition drop (ls : list string) (df : DataFrame) : result DataFrame :=
  require_all ls df ;;;
  Ok {| columns := filter (fun c => negb (mem c ls)) (columns df);
        rows := rows df |}.

(** [df.dropna(subset=cs, inplace=True)] *)
Definition dropna (cs : list string) (df : DataFrame) : result DataFrame :=
  require_all cs df ;;;
  Ok {| columns := columns df;
        rows := filter (fun ir => forallb (fun c => negb (isna (snd ir c))) cs)
                       (rows df) |}.

(** [df[c].fillna(v, inplace=True)] *)
Definition fillna (c : string) (v : cell) (df : DataFrame) : result DataFrame :=
  require c df ;;;
  Ok {| columns := columns df;
        rows := map (fun ir =>
                       (fst ir,
                        set_cell c (if isna (snd ir c) then v else snd ir c)
                                 (snd ir)))
                    (rows df) |}.

(** [df[c] = e] where [e] is computed row by row from the frame; the
    right-hand side is evaluated first and may raise.  A new label goes
    to the end of the columns, an existing one keeps its place. *)
Definition assign (c : string) (e : row -> result cell) (df : DataFrame)
  : result DataFrame :=
  rs <- mapM (fun ir => v <- e (snd ir) ;; Ok (fst ir, set_cell c v (snd ir)))
             (rows df) ;;
  Ok {| columns := if mem c (columns df) then columns df else columns df ++ [c];
        rows := rs |}.

(** [df = df[mask]] where the mask is computed row by row. *)
Definition select (p : row -> result bool) (df : DataFrame) : result DataFrame :=
  mask <- mapM (fun ir => p (snd ir)) (rows df) ;;
  Ok {| columns := columns df;
        rows := map fst (filter snd (combine (rows df) mask)) |}.

(** ** Elementwise operations of the script *)

(** [x > 0] *)
Definition gt0 (v : cell) : result bool :=
  match v with
  | Num x => Ok (F64.ltb F64.zero x)
  | Str _ => Err TypeError
  end.

Definition arith (op : float -> float -> float) (a b : cell) : result cell :=
  match a, b with
  | Num x, Num y => Ok (Num (op x y))
  | _, _ => Err TypeError
  end.

(** [x.split('>>')[0][2:]]; a float has no [split]. *)
Definition category_root (v : cell) : result cell :=
  match v with
  | Str s =>
      segs <- Py.split ">>" s ;;
      seg <- Py.first segs ;;
      Ok (Str (Py.slice_from 2 seg))
  | Num _ => Err AttributeError
  end.

(** [.str.len()]: the length of a string, NaN for any other value. *)
Definition str_len (v : cell) : cell :=
  match v with
  | Str s => Num (F64.of_nat (String.length s))
  | Num _ => Num F64.nan
  end.

(** ** The dtype of a column and the [.str] accessor *)

(** A column of numbers (float64 or int64) or a column of Python objects. *)
Inductive dtype : Type := Numeric | Object.

Definition is_str (v : cell) : bool :=
  match v with
  | Str _ => true
  | Num _ => false
  end.

(** The dtype [read_csv] gives a column: numeric where every field reads
    as a number or is missing, object where one field is text. *)
Definition read_dtype (l : list cell) : dtype :=
  if existsb is_str l then Object else Numeric.

(** The dtype after [fillna] with a string, [l] being the column that is
    filled: a numeric column with a missing value becomes an object
    column, one without stays as it is. *)
Definition fillna_dtype (d : dtype) (l : list cell) : dtype :=
  match d with
  | Object => Object
  | Numeric => if existsb isna l then Object else Numeric
  end.

(** [s.str] on a column of dtype [d] with the values [l]: pandas raises
    AttributeError (Can only use .str accessor with string values) on a
    numeric column, an empty one too, and on an object column whose
    values, the missing ones apart, are numbers only.  An object column
    without a value passes. *)
Definition str_accessor (d : dtype) (l : list cell) : result unit :=
  match d with
  | Numeric => Err AttributeError
  | Object =>
      if existsb is_str l || forallb isna l then Ok tt else Err AttributeError
  end.

(** ** [value_counts] *)

(** Equality of the keys of a count: strings by content, numbers by [==]. *)
Definition cell_eqb (a b : cell) : bool :=
  match a, b with
  | Str s, Str t => String.eqb s t
  | Num x, Num y => F64.eqb x y
  | _, _ => false
  end.

Definition count (k : cell) (l : list cell) : nat :=
  List.length (filter (cell_eqb k) l).

(** Distinct non-missing values in order of first appearance, each with
    the number of its occurrences. *)
Fixpoint tally (l : list cell) (acc : list (cell * nat)) : list (cell * nat) :=
  match l with
  | [] => acc
  | v :: l' =>
      if isna v then tally l' acc
      else if existsb (fun kn => cell_eqb (fst kn) v) acc
           then tally l' (map (fun kn => if cell_eqb (fst kn) v
                                         then (fst kn, S (snd kn)) else kn) acc)
           else tally l' (acc ++ [(v, 1)])
  end.

(** Insertion into a list ordered by decreasing count, before the entries
    that count no more. *)
Fixpoint insert_desc (x : cell * nat) (l : list (cell * nat)) : list (cell * nat) :=
  match l with
  | [] => [x]
  | y :: l' => if Nat.leb (snd y) (snd x) then x :: l else y :: insert_desc x l'
  end.

Definition sort_desc (l : list (cell * nat)) : list (cell * nat) :=
  fold_right insert_desc [] l.

(** [s.value_counts()]: counts in decreasing order, ties in order of first
    appearance. *)
Definition value_counts (l : list cell) : list (cell * nat) :=
  sort_desc (tally l []).

(** [.head(n)] *)
Definition head {A : Type} (n : nat) (l : list A) : list A := firstn n l.

(** ** The script *)

Definition unused_columns : list string :=
  ["uniq_id"; "crawl_timestamp"; "product_url"; "pid"; "image";
   "is_FK_Advantage_product"; "overall_rating"; "product_specifications"].

Record report : Type := {
  category_counts : list (cell * nat);
  brand_counts : list (cell * nat);
  frame : DataFrame;
  cleaned_data : csv_file
}.

Section Script.

(** Library functions the script calls on strings: the number parser of
    [pd.to_numeric], which yields NaN under [errors='coerce'] where the
    text is no number; the polarity [TextBlob(s).sentiment.polarity];
    the text [to_csv] writes for a value. *)
Variable parse : string -> float.
Variable polarity : string -> float.
Variable fmt : cell -> string.

(** [pd.to_numeric(v, errors='coerce')] on one value. *)
Definition to_numeric (v : cell) : float :=
  match v with
  | Num x => x
  | Str s => parse s
  end.

(** [TextBlob(x).sentiment.polarity]; [TextBlob] rejects a non-string. *)
Definition sentiment (v : cell) : result cell :=
  match v with
  | Str s => Ok (Num (polarity s))
  | Num _ => Err TypeError
  end.

(** [df[c] = pd.to_numeric(df[c], errors='coerce')] *)
Definition coerce (c : string) (df : DataFrame) : result DataFrame :=
  require c df ;;;
  assign c (fun r => Ok (Num (to_numeric (r c)))) df.

(** Lines 25-39: projection, missing values, numeric columns. *)
Definition clean (df : DataFrame) : result DataFrame :=
  df <- drop unused_columns df ;;
  df <- dropna ["brand"] df ;;
  df <- fillna "description" (Str "") df ;;
  df <- coerce "retail_price" df ;;
  df <- coerce "discounted_price" df ;;
  df <- dropna ["retail_price"; "discounted_price"] df ;;
  require "retail_price" df ;;;
  df <- select (fun r => gt0 (r "retail_price")) df ;;
  df <- coerce "product_rating" df ;;
  dropna ["product_rating"] df.

(** Line 42. *)
Definition categorise (df : DataFrame) : result DataFrame :=
  require "product_category_tree" df ;;;
  assign "product_category_tree"
         (fun r => category_root (r "product_category_tree")) df.

(** The dtype of the description column from line 29 on, for the frame
    [df] that was read: the fill of line 29 works on the rows that line 28
    left, those with a brand.  No later line assigns the column. *)
Definition description_dtype (df : DataFrame) : dtype :=
  fillna_dtype (read_dtype (column "description" df))
               (map (fun ir => snd ir "description")
                    (filter (fun ir => negb (isna (snd ir "brand"))) (rows df))).

(** Line 95, [d] being the dtype of the description column. *)
Definition add_description_length (d : dtype) (df : DataFrame) : result DataFrame :=
  require "description" df ;;;
  str_accessor d (column "description" df) ;;;
  assign "description_length" (fun r => Ok (str_len (r "description"))) df.

(** The right-hand side of line 106 on one row. *)
Definition discount (r : row) : result cell :=
  d <- arith F64.sub (r "retail_price") (r "discounted_price") ;;
  q <- arith F64.div d (r "retail_price") ;;
  arith F64.mul q (Num F64.hundred).

(** Line 106. *)
Definition add_discount_percentage (df : DataFrame) : result DataFrame :=
  require "retail_price" df ;;;
  require "discounted_price" df ;;;
  assign "discount_percentage" discount df.

(** Line 123. *)
Definition add_sentiment (df : DataFrame) : result DataFrame :=
  require "description" df ;;;
  assign "sentiment" (fun r => sentiment (r "description")) df.

(** [df.to_csv(path, index=...)]: with [index=True] every record starts
    with the row label, under an empty header field. *)
Definition to_csv (index : bool) (df : DataFrame) : csv_file :=
  {| header := (if index then [""] else []) ++ columns df;
     records :=
       map (fun ir =>
              (if index
               then [DecimalString.NilEmpty.string_of_uint (Nat.to_uint (fst ir))]
               else [])
              ++ map (fun c => fmt (snd ir c)) (columns df))
           (rows df) |}.

(** The frame on which line 106 computes the discount. *)
Definition before_discount (t : table) : result DataFrame :=
  let read := read_csv t in
  df <- clean read ;;
  df <- categorise df ;;
  add_description_length (description_dtype read) df.

(** The whole script. *)
Definition script (t : table) : result report :=
  let read := read_csv t in
  df <- clean read ;;
  df <- categorise df ;;
  let category_counts := head 10 (value_counts (column "product_category_tree" df)) in
  require "brand" df ;;;
  let brand_counts := head 10 (value_counts (column "brand" df)) in
  df <- add_description_length (description_dtype read) df ;;
  df <- add_discount_percentage df ;;
  df <- add_sentiment df ;;
  Ok {| category_counts := category_counts;
        brand_counts := brand_counts;
        frame := df;
        cleaned_data := to_csv false df |}.

End Script.

(** ** The script, row by row

    What the script does to one row of the input, and which rows it
    keeps.  The theorems below show that [script] is this row function
    mapped over the kept rows. *)

(** The cell of a successful evaluation (NaN stands for a raised one). *)
Definition value (m : result cell) : cell :=
  match m with
  | Ok v => v
  | Err _ => Num F64.nan
  end.

(** A new label goes to the end of the columns. *)
Definition add_column (c : string) (cs : list string) : list string :=
  if mem c cs then cs else cs ++ [c].

(** The mask bit of a successful evaluation. *)
Definition truth (m : result bool) : bool :=
  match m with
  | Ok b => b
  | Err _ => false
  end.

Definition kept_columns (cs : list string) : list string :=
  filter (fun c => negb (mem c unused_columns)) cs.

Section Rowwise.

Variable parse : string -> float.
Variable polarity : string -> float.

Definition fill_description (r : row) : row :=
  set_cell "description"
           (if isna (r "description") then Str "" else r "description") r.

Definition coerce_cell (c : string) (r : row) : row :=
  set_cell c (Num (to_numeric parse (r c))) r.

(** The row after lines 25-39. *)
Definition clean_row (r : row) : row :=
  coerce_cell "product_rating"
    (coerce_cell "discounted_price"
       (coerce_cell "retail_price" (fill_description r))).

(** The four filters of the cleaning stage on an input row. *)
Definition keeps (r : row) : bool :=
  negb (isna (r "brand"))
  && (negb (F64.is_nan (to_numeric parse (r "retail_price")))
      && negb (F64.is_nan (to_numeric parse (r "discounted_price"))))
  && F64.ltb F64.zero (to_numeric parse (r "retail_price"))
  && negb (F64.is_nan (to_numeric parse (r "product_rating"))).

Definition categorise_row (r : row) : row :=
  set_cell "product_category_tree"
           (value (category_root (r "product_category_tree"))) r.

Definition length_row (r : row) : row :=
  set_cell "description_length" (str_len (r "description")) r.

Definition discount_row (r : row) : row :=
  set_cell "discount_percentage" (value (discount r)) r.

Definition sentiment_row (r : row) : row :=
  set_cell "sentiment" (value (sentiment polarity (r "description"))) r.

(** The row of the cleaned table made from an input row. *)
Definition final_row (r : row) : row :=
  sentiment_row
    (discount_row (length_row (categorise_row (clean_row r)))).

(** The rows for which lines 42 and 123 do not raise. *)
Definition well_typed (r : row) : Prop :=
  (exists s, r "product_category_tree" = Str s)
  /\ (isna (r "description") = true \/ exists s, r "description" = Str s).

End Rowwise.

Definition derived_columns : list string :=
  ["description_length"; "discount_percentage"; "sentiment"].

(** The columns of the cleaned table for given input columns. *)
Definition final_columns (cs : list string) : list string :=
  add_column "sentiment"
    (add_column "discount_percentage"
       (add_column "description_length" (kept_columns cs))).

(** Each entry's count is at least the next entry's count. *)
Definition descending (l : list (cell * nat)) : Prop :=
  forall i a b,
    nth_error l i = Some a -> nth_error l (S i) = Some b -> snd b <= snd a.

(** [s.find(sep)]: the position of the first occurrence. *)
Fixpoint find_from (sep s : string) (i : nat) : option nat :=
  if String.prefix sep s then Some i
  else match s with
       | EmptyString => None
       | String _ s' => find_from sep s' (S i)
       end.

Definition find (sep s : string) : option nat := find_from sep s 0.


(** The labels the cleaning stage reads, and those the whole script reads. *)
Definition clean_columns : list string :=
  unused_columns
  ++ ["brand"; "description"; "retail_price"; "discounted_price"; "product_rating"].

Definition script_columns : list string :=
  clean_columns ++ ["product_category_tree"].

Definition has_columns (cs : list string) (t : table) : bool :=
  forallb (fun c => mem c (t_columns t)) cs.


Section Expected.

Variable parse : string -> float.
Variable polarity : string -> float.

(** The labelled input rows that pass the filters, in file order. *)
Definition kept_rows (t : table) : list (nat * row) :=
  filter (fun ir => keeps parse (snd ir)) (rows (read_csv t)).

Definition final_frame (t : table) : DataFrame :=
  {| columns := final_columns (t_columns t);
     rows := map (fun ir => (fst ir, final_row parse polarity (snd ir)))
                 (kept_rows t) |}.

End Expected.

(** [acc] is the count of the values read so far, [pre]. *)
Definition tallied (pre : list cell) (acc : list (cell * nat)) : Prop :=
  (forall k n, In (k, n) acc -> isna k = false /\ n = count k pre)
  /\ (forall v, In v pre -> isna v = false ->
       exists k n, In (k, n) acc /\ cell_eqb k v = true).

(** Counts in decreasing order. *)
Definition by_count (a b : cell * nat) : Prop := snd b <= snd a.

(** [rk] ranks the values of [col]: at most [n] entries in decreasing
    order of count, each with the number of rows holding its value, the
    first with the highest count of the column, and every value left out
    counted no more than any entry. *)
Definition ranks (n : nat) (col : list cell) (rk : list (cell * nat)) : Prop :=
  descending rk
  /\ List.length rk <= n
  /\ (forall k c, In (k, c) rk -> isna k = false /\ c = count k col)
  /\ (forall v, In v col -> isna v = false ->
       exists k c rest, rk = (k, c) :: rest /\ count v col <= c)
  /\ (forall v, In v col -> isna v = false ->
       (exists k c, In (k, c) rk /\ cell_eqb k v = true)
       \/ forall k c, In (k, c) rk -> count v col <= c).

(** Two rows with the same cells. *)
Definition same_cells (r1 r2 : row) : Prop := forall c, r1 c = r2 c.

(** The number of binary digits of a mantissa. *)
Definition digits (p : positive) : Z := Zpos (digits2_pos p).

(** A number of sign [sx] that is not a zero: an infinity, or a finite
    number whose magnitude [digits m + e] is at least [k]. *)
Definition big (sx : bool) (k : Z) (x : float) : Prop :=
  x = S754_infinity sx
  \/ exists m e, x = S754_finite sx m e /\ (k <= digits m + e)%Z.

(** The columns the script writes to. *)
Definition touched_columns : list string :=
  ["description"; "retail_price"; "discounted_price"; "product_rating";
   "product_category_tree"]
  ++ derived_columns.

(** The keys of a count are kept apart: two entries with equal keys have
    the same key, and no key is listed twice. *)
Definition keyed (acc : list (cell * nat)) : Prop :=
  NoDup (map fst acc)
  /\ forall a b, In a acc -> In b acc ->
       cell_eqb (fst a) (fst b) = true -> fst a = fst b.

(** The number of values of a column that are not missing. *)
Definition present (col : list cell) : nat :=
  List.length (filter (fun v => negb (isna v)) col).

(** ** Sample data *)

Module Sample.

Definition digit (c : ascii) : option Z :=
  let n := nat_of_ascii c in
  if (48 <=? n)%nat && (n <=? 57)%nat then Some (Z.of_nat (n - 48)) else None.

Fixpoint digits (s : string) (acc : Z) : option Z :=
  match s with
  | EmptyString => Some acc
  | String c s' =>
      match digit c with
      | Some d => digits s' (10 * acc + d)%Z
      | None => None
      end
  end.

(** A number parser for unsigned decimal integers; NaN otherwise. *)
Definition parse (s : string) : float :=
  match s with
  | EmptyString => F64.nan
  | _ => match digits s 0 with
         | Some z => F64.of_Z z
         | None => F64.nan
         end
  end.

(** A polarity that finds every text neutral. *)
Definition polarity (_ : string) : float := F64.zero.

(** Strings as they are, a number by its class, a missing value empty. *)
Definition fmt (v : cell) : string :=
  match v with
  | Str s => s
  | Num x => if F64.is_nan x then "" else if F64.is_finite x then "#" else "inf"
  end.

Definition quote : string := String (ascii_of_nat 34) EmptyString.

(** The category path of the dataset's first record, abridged. *)
Definition clothing_path : string :=
  "[" ++ quote ++ "Clothing >> Women's Clothing >> ..." ++ quote ++ "]".

Definition input_columns : list string :=
  ["uniq_id"; "crawl_timestamp"; "product_url"; "product_name";
   "product_category_tree"; "pid"; "retail_price"; "discounted_price";
   "image"; "is_FK_Advantage_product"; "description"; "product_rating";
   "overall_rating"; "brand"; "product_specifications"].

(** A row given by its non-missing cells. *)
Definition mk (l : list (string * cell)) : row :=
  fun c =>
    match List.find (fun kv => String.eqb (fst kv) c) l with
    | Some kv => snd kv
    | None => Num F64.nan
    end.

Definition product (category : string) (brand retail discounted rating description : cell)
  : row :=
  mk [("product_name", Str "Cycling Shorts");
      ("product_category_tree", Str category);
      ("retail_price", retail); ("discounted_price", discounted);
      ("description", description); ("product_rating", rating);
      ("brand", brand)].

Definition n (z : Z) : cell := Num (F64.of_Z z).
Definition missing : cell := Num F64.nan.

Definition shorts : row :=
  product clothing_path (Str "Alisha") (n 1000) (n 800) (n 4) (Str "Cotton shorts").
Definition no_brand : row :=
  product clothing_path missing (n 500) (n 400) (n 4) (Str "x").
Definition bad_price : row :=
  product clothing_path (Str "Acme") (Str "abc") (n 400) (n 4) (Str "x").
Definition no_description : row :=
  product clothing_path (Str "Acme") (Str "500") (Str "600") (Str "3") missing.
Definition flat_path : row :=
  product "Clothing" (Str "Acme") (n 500) (n 0) (n 5) (Str "Plain").
Definition marked_up : row :=
  product clothing_path (Str "Acme") (n 800) (n 1000) (n 2) (Str "Dear").

Definition catalogue : table :=
  {| t_columns := input_columns;
     t_rows := [shorts; no_brand; bad_price; no_description; flat_path; marked_up] |}.


Definition run (t : table) : result report := script parse polarity fmt t.

(** The report of a run that does not raise. *)
Definition report_of (t : table) : report :=
  let df := final_frame parse polarity t in
  {| category_counts := head 10 (value_counts (column "product_category_tree" df));
     brand_counts := head 10 (value_counts (column "brand" df));
     frame := df;
     cleaned_data := to_csv fmt false df |}.

(** The parts of [clothing_path]. *)
Definition clothing_prefix : string := "[" ++ quote.
Definition clothing_segment : string := "Clothing ".
Definition clothing_rest : string := " Women's Clothing >> ..." ++ quote ++ "]".

(** The catalogue with one more record, without a category path. *)
Definition uncategorised : table :=
  {| t_columns := input_columns;
     t_rows := t_rows catalogue
               ++ [set_cell "product_category_tree" missing shorts] |}.

(** The catalogue without its column of ratings. *)
Definition unrated : table :=
  {| t_columns := filter (fun c => negb (String.eqb c "product_rating")) input_columns;
     t_rows := t_rows catalogue |}.

(** The cleaned table of the catalogue, read back. *)
Definition reread : table :=
  {| t_columns := final_columns input_columns;
     t_rows := map (fun ir => final_row parse polarity (snd ir))
                   (kept_rows parse catalogue) |}.

(** A record sold at its retail price and one given away. *)
Definition full_price : row :=
  product clothing_path (Str "Acme") (n 300) (n 300) (n 4) (Str "x").
Definition free_item : row :=
  product clothing_path (Str "Acme") (n 300) (n 0) (n 4) (Str "x").

Definition offers : table :=
  {| t_columns := input_columns; t_rows := [full_price; free_item; shorts] |}.

(** A file of one record, without a brand and with a number for its
    description, and a file of one record without a description. *)
Definition numbered : table :=
  {| t_columns := input_columns;
     t_rows := [product clothing_path missing (n 500) (n 400) (n 4) (n 7)] |}.
Definition undescribed : table :=
  {| t_columns := input_columns; t_rows := [no_description] |}.

End Sample.

(** * Properties *)

(** ** Results and frames *)

Lemma bind_ok {A B : Type} (m : result A) (k : A -> result B) (b : B) :
  bind m k = Ok b -> exists a, m = Ok a /\ k a = Ok b.
Proof.
  destruct m as [a|e]; simpl; intros H; [eauto | discriminate].
Qed.

Lemma mapM_pure {A B : Type} (g : A -> B) (l : list A) :
  mapM (fun a => Ok (g a)) l = Ok (map g l).
Proof.
  induction l as [|a l IH]; simpl; [reflexivity|].
  now rewrite IH.
Qed.

Lemma mapM_ext {A B : Type} (f g : A -> result B) (l : list A) :
  Forall (fun a => f a = g a) l -> mapM f l = mapM g l.
Proof.
  induction 1 as [|a l Ha _ IH]; simpl; [reflexivity|].
  now rewrite Ha, IH.
Qed.

Lemma mapM_inv {A B : Type} (f : A -> result B) (l : list A) (l' : list B) :
  mapM f l = Ok l' -> Forall (fun a => exists b, f a = Ok b) l.
Proof.
  revert l'. induction l as [|a l IH]; simpl; intros l' H; [constructor|].
  apply bind_ok in H. destruct H as (b & Hb & H).
  apply bind_ok in H. destruct H as (bs & Hbs & _).
  constructor; eauto.
Qed.

Lemma mem_true_iff c l : mem c l = true <-> In c l.
Proof.
  unfold mem. rewrite existsb_exists. split.
  - intros (x & Hx & E). apply String.eqb_eq in E. now subst.
  - intros H. exists c. split; [assumption | apply String.eqb_refl].
Qed.

Lemma mem_filter c (p : string -> bool) l :
  mem c (filter p l) = mem c l && p c.
Proof.
  induction l as [|a l IH]; simpl; [reflexivity|].
  destruct (p a) eqn:Pa; simpl; rewrite IH.
  - destruct (String.eqb c a) eqn:E; simpl; [|reflexivity].
    apply String.eqb_eq in E. subst. now rewrite Pa.
  - destruct (String.eqb c a) eqn:E; simpl; [|reflexivity].
    apply String.eqb_eq in E. subst. rewrite Pa.
    now rewrite andb_false_r.
Qed.

Lemma mem_app c l1 l2 : mem c (l1 ++ l2) = mem c l1 || mem c l2.
Proof. unfold mem. apply existsb_app. Qed.

Lemma mem_add_column c d l : mem c (add_column d l) = mem c l || String.eqb c d.
Proof.
  unfold add_column. destruct (mem d l) eqn:M.
  - destruct (String.eqb c d) eqn:E; [|now rewrite orb_false_r].
    apply String.eqb_eq in E. subst. now rewrite M.
  - rewrite mem_app. simpl. now rewrite orb_false_r.
Qed.

Lemma add_column_present c l : mem c l = true -> add_column c l = l.
Proof. unfold add_column. now intros ->. Qed.

Lemma filter_map_comm {A B : Type} (p : B -> bool) (g : A -> B) (l : list A) :
  filter p (map g l) = map g (filter (fun a => p (g a)) l).
Proof.
  induction l as [|a l IH]; simpl; [reflexivity|].
  destruct (p (g a)); simpl; now rewrite IH.
Qed.

Lemma filter_filter {A : Type} (p q : A -> bool) (l : list A) :
  filter p (filter q l) = filter (fun a => q a && p a) l.
Proof.
  induction l as [|a l IH]; simpl; [reflexivity|].
  destruct (q a); simpl; [destruct (p a)|]; simpl; now rewrite IH.
Qed.

(** The operations on frames, as equations. *)

Lemma require_ok c df : mem c (columns df) = true -> require c df = Ok tt.
Proof. unfold require. now intros ->. Qed.

Lemma require_inv c df u : require c df = Ok u -> mem c (columns df) = true.
Proof. unfold require. destruct (mem c (columns df)); [reflexivity | discriminate]. Qed.

Lemma require_all_ok cs df :
  forallb (fun c => mem c (columns df)) cs = true -> require_all cs df = Ok tt.
Proof.
  induction cs as [|c cs IH]; simpl; [reflexivity|].
  intros H. apply andb_prop in H. destruct H as [H1 H2].
  now rewrite (require_ok _ _ H1), (IH H2).
Qed.

Lemma require_all_inv cs df u :
  require_all cs df = Ok u -> forallb (fun c => mem c (columns df)) cs = true.
Proof.
  revert u. induction cs as [|c cs IH]; simpl; intros u H; [reflexivity|].
  apply bind_ok in H. destruct H as (u1 & H1 & H2).
  apply require_inv in H1. rewrite H1. simpl. eauto.
Qed.

Lemma assign_pure c (g : row -> cell) df :
  assign c (fun r => Ok (g r)) df =
  Ok {| columns := add_column c (columns df);
        rows := map (fun ir => (fst ir, set_cell c (g (snd ir)) (snd ir))) (rows df) |}.
Proof.
  unfold assign. simpl.
  rewrite (mapM_pure (fun ir => (fst ir, set_cell c (g (snd ir)) (snd ir)))).
  reflexivity.
Qed.

Lemma assign_ok c (e : row -> result cell) df :
  Forall (fun ir => exists v, e (snd ir) = Ok v) (rows df) ->
  assign c e df =
  Ok {| columns := add_column c (columns df);
        rows := map (fun ir => (fst ir, set_cell c (value (e (snd ir))) (snd ir)))
                    (rows df) |}.
Proof.
  intros H. unfold assign.
  rewrite (mapM_ext _ (fun ir => Ok (fst ir, set_cell c (value (e (snd ir))) (snd ir)))).
  - now rewrite mapM_pure.
  - eapply Forall_impl; [|exact H]. intros ir (v & Hv). simpl.
    now rewrite Hv.
Qed.

Lemma assign_inv c (e : row -> result cell) df df' :
  assign c e df = Ok df' ->
  Forall (fun ir => exists v, e (snd ir) = Ok v) (rows df).
Proof.
  unfold assign. intros H. apply bind_ok in H. destruct H as (rs & H & _).
  apply mapM_inv in H. eapply Forall_impl; [|exact H].
  intros ir (b & Hb). simpl in Hb. destruct (e (snd ir)); [eauto | discriminate].
Qed.

Lemma select_ok (p : row -> result bool) df :
  Forall (fun ir => exists b, p (snd ir) = Ok b) (rows df) ->
  select p df =
  Ok {| columns := columns df;
        rows := filter (fun ir => truth (p (snd ir))) (rows df) |}.
Proof.
  intros H. unfold select.
  rewrite (mapM_ext _ (fun ir => Ok (truth (p (snd ir))))).
  - rewrite mapM_pure. simpl. f_equal. f_equal.
    clear H. induction (rows df) as [|ir l IH]; simpl; [reflexivity|].
    destruct (truth (p (snd ir))); simpl; now rewrite IH.
  - eapply Forall_impl; [|exact H]. intros ir (b & Hb). now rewrite Hb.
Qed.

Lemma select_inv (p : row -> result bool) df df' :
  select p df = Ok df' ->
  Forall (fun ir => exists b, p (snd ir) = Ok b) (rows df).
Proof.
  unfold select. intros H. apply bind_ok in H. destruct H as (rs & H & _).
  now apply mapM_inv in H.
Qed.

Lemma dropna_ok cs df :
  forallb (fun c => mem c (columns df)) cs = true ->
  dropna cs df =
  Ok {| columns := columns df;
        rows := filter (fun ir => forallb (fun c => negb (isna (snd ir c))) cs)
                       (rows df) |}.
Proof. intros H. unfold dropna. now rewrite (require_all_ok _ _ H). Qed.

Lemma fillna_ok c v df :
  mem c (columns df) = true ->
  fillna c v df =
  Ok {| columns := columns df;
        rows := map (fun ir =>
                       (fst ir,
                        set_cell c (if isna (snd ir c) then v else snd ir c)
                                 (snd ir)))
                    (rows df) |}.
Proof. intros H. unfold fillna. now rewrite (require_ok _ _ H). Qed.

Lemma mem_kept c cs :
  mem c (kept_columns cs) = mem c cs && negb (mem c unused_columns).
Proof. apply mem_filter. Qed.

(** ** float64: when an operation yields NaN *)

Lemma shr_1_nonneg mrs : (0 <= shr_m mrs -> 0 <= shr_m (shr_1 mrs))%Z.
Proof.
  destruct mrs as [m r s]. simpl.
  destruct m as [|p|p]; simpl; try lia.
  destruct p; simpl; lia.
Qed.

Lemma iter_shr_1_nonneg n :
  forall mrs, (0 <= shr_m mrs -> 0 <= shr_m (iter_pos shr_1 n mrs))%Z.
Proof.
  induction n as [n IH|n IH|]; intros mrs H; simpl.
  - apply IH, IH, shr_1_nonneg, H.
  - apply IH, IH, H.
  - apply shr_1_nonneg, H.
Qed.


Lemma shr_record_of_loc_m m l : shr_m (shr_record_of_loc m l) = m.
Proof. destruct l as [|[| |]]; reflexivity. Qed.









Lemma positive_cases x :
  F64.ltb F64.zero x = true ->
  x = F64.inf \/ exists m e, x = S754_finite false m e.
Proof.
  destruct x as [s|s| |s m e]; try discriminate.
  - destruct s; [discriminate | now left].
  - destruct s; [discriminate | right; eauto].
Qed.


(** ** float64: magnitudes *)

Section Magnitude.

Local Open Scope Z_scope.

Lemma digits_pos p : 1 <= digits p.
Proof. unfold digits. lia. Qed.

Lemma digits_bounds p : 2 ^ (digits p - 1) <= Zpos p < 2 ^ digits p.
Proof.
  unfold digits. induction p as [p IH|p IH|]; cbn [digits2_pos].
  - rewrite Pos2Z.inj_succ.
    replace (Z.succ (Zpos (digits2_pos p)) - 1) with (Z.succ (Zpos (digits2_pos p) - 1)) by lia.
    rewrite !Z.pow_succ_r by lia. lia.
  - rewrite Pos2Z.inj_succ.
    replace (Z.succ (Zpos (digits2_pos p)) - 1) with (Z.succ (Zpos (digits2_pos p) - 1)) by lia.
    rewrite !Z.pow_succ_r by lia. lia.
  - simpl. lia.
Qed.

Lemma digits_ge p k : 0 <= k -> 2 ^ k <= Zpos p -> k + 1 <= digits p.
Proof.
  intros Hk H. destruct (Z_lt_le_dec k (digits p)) as [|Hle]; [lia|].
  pose proof (digits_bounds p) as [_ Hu].
  pose proof (Z.pow_le_mono_r 2 (digits p) k ltac:(lia) Hle). lia.
Qed.

Lemma digits_le p k : Zpos p < 2 ^ k -> digits p <= k.
Proof.
  intros H. destruct (Z_lt_le_dec k (digits p)) as [Hlt|]; [|lia].
  pose proof (digits_bounds p) as [Hl _]. pose proof (digits_pos p).
  destruct (Z_lt_le_dec k 0) as [Hn|Hn].
  - rewrite Z.pow_neg_r in H by lia. lia.
  - pose proof (Z.pow_le_mono_r 2 k (digits p - 1) ltac:(lia) ltac:(lia)). lia.
Qed.

Lemma digits_mono p q : (p <= q)%positive -> digits p <= digits q.
Proof.
  intros H. pose proof (digits_bounds p) as [Hl _]. pose proof (digits_pos p).
  pose proof (digits_ge q (digits p - 1) ltac:(lia) ltac:(lia)). lia.
Qed.

Lemma digits_iter_xO p d : digits (Pos.iter xO p d) = digits p + Zpos d.
Proof.
  unfold digits. induction d as [|d IH] using Pos.peano_ind.
  - simpl. lia.
  - rewrite Pos.iter_succ. cbn [digits2_pos]. rewrite !Pos2Z.inj_succ, IH. lia.
Qed.

Lemma shr_1_m mrs : 0 <= shr_m mrs -> shr_m (shr_1 mrs) = shr_m mrs / 2.
Proof.
  destruct mrs as [m r s]. simpl. intros H.
  destruct m as [|p|p]; [reflexivity| |lia].
  destruct p as [p|p|]; simpl.
  - rewrite Pos2Z.inj_xI. apply Z.div_unique with 1; lia.
  - rewrite Pos2Z.inj_xO. apply Z.div_unique with 0; lia.
  - reflexivity.
Qed.

Lemma iter_shr_1_m n : forall mrs,
  0 <= shr_m mrs -> shr_m (iter_pos shr_1 n mrs) = shr_m mrs / 2 ^ Zpos n.
Proof.
  induction n as [n IH|n IH|]; intros mrs H; simpl iter_pos.
  - rewrite IH by (apply iter_shr_1_nonneg, shr_1_nonneg, H).
    rewrite IH by (apply shr_1_nonneg, H).
    rewrite shr_1_m by exact H.
    rewrite !Z.div_div by (try apply Z.pow_pos_nonneg; lia).
    f_equal. rewrite (Pos2Z.inj_xI n).
    replace (2 * Zpos n + 1) with (1 + Zpos n + Zpos n) by lia.
    rewrite (Z.pow_add_r 2 (1 + Zpos n) (Zpos n)) by lia.
    rewrite (Z.pow_add_r 2 1 (Zpos n)) by lia. lia.
  - rewrite IH by (apply iter_shr_1_nonneg, H).
    rewrite IH by exact H.
    rewrite !Z.div_div by (try apply Z.pow_pos_nonneg; lia).
    f_equal. rewrite (Pos2Z.inj_xO n).
    replace (2 * Zpos n) with (Zpos n + Zpos n) by lia.
    rewrite (Z.pow_add_r 2 (Zpos n) (Zpos n)) by lia. lia.
  - rewrite shr_1_m by exact H. reflexivity.
Qed.


Lemma big_weaken sx k k' x : k' <= k -> big sx k x -> big sx k' x.
Proof.
  intros Hk [H|(m & e & H & Hm)]; [now left|].
  right. exists m, e. split; [assumption | lia].
Qed.

Lemma fexp_eq e : fexp F64.prec F64.emax e = Z.max (e - 53) (-1074).
Proof. reflexivity. Qed.

(** Shifting to the working precision keeps the magnitude of a mantissa
    above the underflow threshold. *)
Lemma shr_fexp_magnitude p E l :
  -1074 < digits p + E ->
  exists p',
    shr_m (fst (shr_fexp F64.prec F64.emax (Zpos p) E l)) = Zpos p'
    /\ digits p' + snd (shr_fexp F64.prec F64.emax (Zpos p) E l) = digits p + E.
Proof.
  intros H. unfold shr_fexp, shr. cbn [Zdigits2]. fold (digits p).
  rewrite fexp_eq.
  destruct (Z.max (digits p + E - 53) (-1074) - E) as [|k|k] eqn:En; cbn [fst snd].
  - exists p. rewrite shr_record_of_loc_m. auto.
  - rewrite iter_shr_1_m by (rewrite shr_record_of_loc_m; lia).
    rewrite shr_record_of_loc_m.
    pose proof (digits_bounds p) as [Hl Hu].
    assert (Hk : Zpos k < digits p) by lia.
    assert (Hp : 0 < 2 ^ Zpos k) by (apply Z.pow_pos_nonneg; lia).
    assert (E1 : 2 ^ (digits p - 1) = 2 ^ Zpos k * 2 ^ (digits p - Zpos k - 1)).
    { rewrite <- Z.pow_add_r by lia. f_equal. lia. }
    assert (E2 : 2 ^ digits p = 2 ^ Zpos k * 2 ^ (digits p - Zpos k)).
    { rewrite <- Z.pow_add_r by lia. f_equal. lia. }
    assert (Hlo : 2 ^ (digits p - Zpos k - 1) <= Zpos p / 2 ^ Zpos k).
    { apply Z.div_le_lower_bound; lia. }
    assert (Hhi : Zpos p / 2 ^ Zpos k < 2 ^ (digits p - Zpos k)).
    { apply Z.div_lt_upper_bound; lia. }
    assert (0 < 2 ^ (digits p - Zpos k - 1)) by (apply Z.pow_pos_nonneg; lia).
    destruct (Zpos p / 2 ^ Zpos k) as [|q|q] eqn:Eq; try lia.
    exists q. split; [reflexivity|].
    pose proof (digits_ge q (digits p - Zpos k - 1) ltac:(lia) Hlo).
    pose proof (digits_le q (digits p - Zpos k) Hhi). lia.
  - exists p. rewrite shr_record_of_loc_m. auto.
Qed.

Lemma round_nearest_even_pos p l :
  exists q, round_nearest_even (Zpos p) l = Zpos q /\ (p <= q)%positive.
Proof.
  destruct l as [|[| |]]; simpl.
  - exists p. split; [reflexivity | lia].
  - destruct p; simpl; eexists; split; try reflexivity; lia.
  - exists p. split; [reflexivity | lia].
  - exists (p + 1)%positive. split; [reflexivity | lia].
Qed.

(** Rounding a mantissa above the underflow threshold does not lower its
    magnitude and yields no zero. *)
Lemma binary_round_aux_big sx p E l :
  -1074 < digits p + E ->
  big sx (digits p + E) (binary_round_aux F64.prec F64.emax sx (Zpos p) E l).
Proof.
  intros H. unfold binary_round_aux.
  destruct (shr_fexp_magnitude p E l H) as (p1 & H1 & M1).
  destruct (shr_fexp F64.prec F64.emax (Zpos p) E l) as [mrs1 e1].
  cbn [fst snd] in H1, M1. rewrite H1.
  destruct (round_nearest_even_pos p1 (loc_of_shr_record mrs1)) as (q & -> & Hq).
  apply digits_mono in Hq.
  destruct (shr_fexp_magnitude q e1 loc_Exact ltac:(lia)) as (p2 & H2 & M2).
  destruct (shr_fexp F64.prec F64.emax (Zpos q) e1 loc_Exact) as [mrs2 e2].
  cbn [fst snd] in H2, M2. rewrite H2.
  destruct (e2 <=? F64.emax - F64.prec); [right | now left].
  exists p2, e2. split; [reflexivity | lia].
Qed.

Lemma binary_round_big sx p E :
  -1074 < digits p + E ->
  big sx (digits p + E) (binary_round F64.prec F64.emax sx p E).
Proof.
  intros H. unfold binary_round, shl_align. fold (digits p). rewrite fexp_eq.
  destruct (Z.max (digits p + E - 53) (-1074) - E) as [|k|k] eqn:En.
  - now apply binary_round_aux_big.
  - now apply binary_round_aux_big.
  - eapply big_weaken; [|apply binary_round_aux_big];
      rewrite digits_iter_xO; lia.
Qed.

Lemma valid_finite s m e :
  F64.valid (S754_finite s m e) = true -> -1074 <= e /\ (digits m <= 53)
  /\ (-1074 < e -> digits m = 53).
Proof.
  unfold F64.valid, valid_binary, bounded, canonical_mantissa.
  intros H. apply andb_prop in H. destruct H as [H _].
  apply Z.eqb_eq in H. rewrite fexp_eq in H. fold (digits m) in H. lia.
Qed.

Lemma ltb_finite_cases mR eR sD mD eD :
  F64.ltb (S754_finite false mR eR) (S754_finite sD mD eD) = true ->
  sD = false /\ (eR < eD \/ (eR = eD /\ (mR < mD)%positive)).
Proof.
  unfold F64.ltb, SFltb. simpl. destruct sD; intros H; [discriminate H|].
  split; [reflexivity|].
  destruct (eR ?= eD) eqn:C.
  - apply Z.compare_eq in C. right. split; [assumption|].
    fold (Pos.compare mR mD) in H.
    destruct (mR ?= mD)%positive eqn:C'; try discriminate H.
    now apply Pos.compare_lt_iff.
  - left. now apply Z.compare_lt_iff.
  - discriminate H.
Qed.

(** The difference of a smaller and a larger positive float64 is negative
    and not a zero. *)
Lemma sub_lt_big mR eR mD eD :
  F64.valid (S754_finite false mR eR) = true ->
  F64.valid (S754_finite false mD eD) = true ->
  F64.ltb (S754_finite false mR eR) (S754_finite false mD eD) = true ->
  big true (1 + eR) (F64.sub (S754_finite false mR eR) (S754_finite false mD eD)).
Proof.
  intros VR VD Hlt.
  apply valid_finite in VR, VD. destruct VR as (HeR & HdR & _), VD as (_ & _ & HdD).
  apply ltb_finite_cases in Hlt. destruct Hlt as [_ Hlt].
  unfold F64.sub, SFsub. cbn [cond_Zopp].
  assert (Hmin : Z.min eR eD = eR) by lia. rewrite Hmin.
  assert (Ha : fst (shl_align mR eR eR) = mR).
  { unfold shl_align. now rewrite Z.sub_diag. }
  rewrite Ha.
  assert (Hb : (mR < fst (shl_align mD eD eR))%positive).
  { unfold shl_align. destruct Hlt as [Hlt | [-> Hlt]].
    - destruct (eR - eD) as [|k|k] eqn:Ek; try lia. cbn [fst].
      pose proof (digits_iter_xO mD k) as Hd.
      destruct (Pos.lt_total mR (Pos.iter xO mD k)) as [|[E|Hgt]]; [assumption| |].
      + rewrite <- E in Hd. lia.
      + assert (Hle : (Pos.iter xO mD k <= mR)%positive) by lia.
        apply digits_mono in Hle. lia.
    - now rewrite Z.sub_diag. }
  destruct (Zpos mR - Zpos (fst (shl_align mD eD eR))) as [|p|p] eqn:Ep; try lia.
  cbn [binary_normalize].
  pose proof (digits_pos p).
  eapply big_weaken; [|apply binary_round_big]; lia.
Qed.

(** Dividing a negative number that is not a zero by a positive finite
    one: the magnitudes subtract. *)
Lemma div_big x mR eR k :
  big true k x ->
  -1021 <= k - (digits mR + eR) ->
  big true (k - (digits mR + eR)) (F64.div x (S754_finite false mR eR)).
Proof.
  intros [-> | (m1 & e1 & -> & Hk)] Hd; [now left|].
  unfold F64.div, SFdiv, SFdiv_core_binary. cbn [Zdigits2 xorb].
  fold (digits m1) (digits mR). rewrite fexp_eq.
  set (D := digits m1 + e1 - (digits mR + eR)).
  assert (HD : Z.max (D - 53) (-1074) = D - 53) by (subst D; lia).
  rewrite HD.
  set (e' := Z.min (D - 53) (e1 - eR)).
  set (s := e1 - eR - e').
  assert (Hs : 53 - digits m1 + digits mR <= s) by (subst s e' D; lia).
  pose proof (digits_pos m1). pose proof (digits_pos mR).
  assert (Hm' : match s with
                | 0 => Zpos m1
                | Zpos _ => Z.shiftl (Zpos m1) s
                | Zneg _ => 0
                end = Zpos m1 * 2 ^ s).
  { destruct s as [|ps|ps] eqn:Es; try lia.
    now rewrite Z.shiftl_mul_pow2 by lia. }
  rewrite Hm'.
  pose proof (Z_div_mod (Zpos m1 * 2 ^ s) (Zpos mR) eq_refl) as Hdm.
  destruct (Z.div_eucl (Zpos m1 * 2 ^ s) (Zpos mR)) as [q r].
  destruct Hdm as [Hq Hr].
  pose proof (digits_bounds m1) as [Hl1 _].
  pose proof (digits_bounds mR) as [_ HuR].
  assert (Hps : 0 < 2 ^ s) by (apply Z.pow_pos_nonneg; lia).
  set (kq := digits m1 + s - digits mR - 1).
  assert (Hkq : 0 <= kq) by (subst kq; lia).
  assert (Hpk : 0 < 2 ^ kq) by (apply Z.pow_pos_nonneg; lia).
  assert (E1 : 2 ^ kq * 2 ^ digits mR = 2 ^ (digits m1 - 1) * 2 ^ s).
  { rewrite <- !Z.pow_add_r by lia. f_equal. subst kq. lia. }
  assert (Hlow : 2 ^ kq <= q).
  { destruct (Z_lt_le_dec q (2 ^ kq)) as [Hlt|]; [|assumption].
    assert (Zpos mR * q + r < Zpos mR * 2 ^ kq) by nia.
    assert (Zpos mR * 2 ^ kq < 2 ^ kq * 2 ^ digits mR) by nia.
    assert (2 ^ (digits m1 - 1) * 2 ^ s <= Zpos m1 * 2 ^ s) by nia.
    lia. }
  destruct q as [|pq|pq]; try lia.
  pose proof (digits_ge pq kq Hkq Hlow) as Hdq.
  eapply big_weaken; [|apply binary_round_aux_big]; subst kq s e' D; lia.
Qed.

Lemma mul_hundred_big x k :
  big true k x -> -1074 < k + 6 ->
  big true (k + 6) (F64.mul x F64.hundred).
Proof.
  intros [-> | (m & e & -> & Hk)] Hd; [now left|].
  unfold F64.mul, F64.hundred, SFmul. cbn [xorb].
  pose proof (digits_bounds m) as [Hl _]. pose proof (digits_pos m).
  assert (Hp : 2 ^ (digits m + 51) <= Zpos (m * 7036874417766400)).
  { rewrite Pos2Z.inj_mul.
    replace (digits m + 51) with ((digits m - 1) + 52) by lia.
    rewrite Z.pow_add_r by lia.
    change (2 ^ 52) with 4503599627370496.
    assert (0 < 2 ^ (digits m - 1)) by (apply Z.pow_pos_nonneg; lia).
    nia. }
  apply digits_ge in Hp; [|lia].
  eapply big_weaken; [|apply binary_round_aux_big]; lia.
Qed.

Lemma big_negative k x : big true k x -> F64.ltb x F64.zero = true.
Proof. intros [-> | (m & e & -> & _)]; reflexivity. Qed.

(** A discounted price above a positive retail price makes the discount
    strictly negative. *)
Lemma discount_negative R D :
  F64.valid R = true -> F64.valid D = true ->
  F64.ltb F64.zero R = true ->
  F64.ltb R D = true ->
  F64.ltb (F64.mul (F64.div (F64.sub R D) R) F64.hundred) F64.zero = true.
Proof.
  intros VR VD HR Hlt.
  destruct (positive_cases R HR) as [-> | (mR & eR & ->)].
  - destruct D as [s|s| |s m e]; try discriminate Hlt. destruct s; discriminate Hlt.
  - destruct D as [sD|sD| |sD mD eD]; try discriminate Hlt.
    + destruct sD; [discriminate Hlt | reflexivity].
    + destruct (ltb_finite_cases _ _ _ _ _ Hlt) as [-> _].
      pose proof (valid_finite _ _ _ VR) as (HeR & HdR & _).
      pose proof (digits_pos mR).
      apply (big_negative (1 + eR - (digits mR + eR) + 6)).
      apply mul_hundred_big; [|lia].
      apply div_big; [|lia].
      now apply sub_lt_big.
Qed.

End Magnitude.

(** ** Keys and counts *)

Lemma feqb_true_iff x y :
  F64.eqb x y = true
  <-> (F64.is_zero x = true /\ F64.is_zero y = true)
      \/ (x = y /\ F64.is_nan x = false).
Proof.
  unfold F64.eqb, SFeqb.
  destruct x as [sx|sx| |sx mx ex], y as [sy|sy| |sy my ey]; simpl;
    try (split; [intros H; discriminate H | intros [[H1 H2]|[H1 H2]]; discriminate]);
    try (split; [auto | reflexivity]).
  1-7: destruct sx, sy; simpl;
    (split; [intros H; first [discriminate H | right; split; reflexivity]
            | intros [[H1 H2]|[H1 H2]]; congruence]).
  - assert (E : forall c : comparison,
               match ex ?= ey with Lt => Lt | Gt => Gt | Eq => c end%Z = Eq
               <-> ex = ey /\ c = Eq).
    { intros c. destruct (ex ?= ey)%Z eqn:C.
      - apply Z.compare_eq in C. tauto.
      - split; [intros H; discriminate H|]. intros [-> _]. rewrite Z.compare_refl in C. discriminate C.
      - split; [intros H; discriminate H|]. intros [-> _]. rewrite Z.compare_refl in C. discriminate C. }
    assert (E' : forall c : comparison,
               match ex ?= ey with Lt => Gt | Gt => Lt | Eq => c end%Z = Eq
               <-> ex = ey /\ c = Eq).
    { intros c. destruct (ex ?= ey)%Z eqn:C.
      - apply Z.compare_eq in C. tauto.
      - split; [intros H; discriminate H|]. intros [-> _]. rewrite Z.compare_refl in C. discriminate C.
      - split; [intros H; discriminate H|]. intros [-> _]. rewrite Z.compare_refl in C. discriminate C. }
    fold (Pos.compare mx my).
    destruct sx, sy; simpl.
    + destruct (match (ex ?= ey)%Z with Lt => Gt | Gt => Lt | Eq => CompOpp (mx ?= my)%positive end) eqn:C.
      * apply E' in C. destruct C as [-> C].
        destruct (mx ?= my)%positive eqn:C'; try discriminate.
        apply Pos.compare_eq in C'. subst. split; auto.
      * split; [intros H; discriminate H|]. intros [[H _]|[H _]]; [discriminate H|].
        injection H as -> ->. rewrite Z.compare_refl, Pos.compare_refl in C. discriminate C.
      * split; [intros H; discriminate H|]. intros [[H _]|[H _]]; [discriminate H|].
        injection H as -> ->. rewrite Z.compare_refl, Pos.compare_refl in C. discriminate C.
    + split; [intros H; discriminate H|]. intros [[H _]|[H _]]; discriminate H.
    + split; [intros H; discriminate H|]. intros [[H _]|[H _]]; discriminate H.
    + destruct (match (ex ?= ey)%Z with Lt => Lt | Gt => Gt | Eq => (mx ?= my)%positive end) eqn:C.
      * apply E in C. destruct C as [-> C].
        apply Pos.compare_eq in C. subst. split; auto.
      * split; [intros H; discriminate H|]. intros [[H _]|[H _]]; [discriminate H|].
        injection H as -> ->. rewrite Z.compare_refl, Pos.compare_refl in C. discriminate C.
      * split; [intros H; discriminate H|]. intros [[H _]|[H _]]; [discriminate H|].
        injection H as -> ->. rewrite Z.compare_refl, Pos.compare_refl in C. discriminate C.
Qed.
Lemma feqb_refl x : F64.is_nan x = false -> F64.eqb x x = true.
Proof. intros H. apply feqb_true_iff. right. auto. Qed.

Lemma feqb_sym x y : F64.eqb x y = true -> F64.eqb y x = true.
Proof.
  rewrite !feqb_true_iff. intros [[H1 H2]|[-> H2]]; [left|right]; auto.
Qed.

Lemma feqb_trans x y z :
  F64.eqb x y = true -> F64.eqb y z = true -> F64.eqb x z = true.
Proof.
  rewrite !feqb_true_iff.
  intros [[H1 H2]|[-> H2]] [[H3 H4]|[<- H4]]; auto.
Qed.

Lemma cell_eqb_refl v : isna v = false -> cell_eqb v v = true.
Proof.
  destruct v as [x|s]; simpl; [apply feqb_refl | intros _; apply String.eqb_refl].
Qed.

Lemma cell_eqb_sym a b : cell_eqb a b = true -> cell_eqb b a = true.
Proof.
  destruct a as [x|s], b as [y|t]; simpl; try discriminate.
  - apply feqb_sym.
  - now rewrite String.eqb_sym.
Qed.

Lemma cell_eqb_trans a b c :
  cell_eqb a b = true -> cell_eqb b c = true -> cell_eqb a c = true.
Proof.
  destruct a as [x|s], b as [y|t], c as [z|u]; simpl; try discriminate.
  - apply feqb_trans.
  - rewrite !String.eqb_eq. congruence.
Qed.

Lemma cell_eqb_notna a b : cell_eqb a b = true -> isna a = false /\ isna b = false.
Proof.
  destruct a as [x|s], b as [y|t]; simpl; try discriminate; auto.
  intros H. apply feqb_true_iff in H.
  destruct H as [[H1 H2]|[<- H2]]; [|auto].
  destruct x, y; try discriminate; auto.
Qed.

(** Two equal keys select the same rows. *)
Lemma cell_eqb_same a b v :
  cell_eqb a b = true -> cell_eqb a v = cell_eqb b v.
Proof.
  intros H. destruct (cell_eqb a v) eqn:E1, (cell_eqb b v) eqn:E2; try reflexivity.
  - apply cell_eqb_sym in H. rewrite (cell_eqb_trans _ _ _ H E1) in E2. discriminate.
  - rewrite (cell_eqb_trans _ _ _ H E2) in E1. discriminate.
Qed.

Lemma count_same a b l : cell_eqb a b = true -> count a l = count b l.
Proof.
  intros H. unfold count. f_equal. apply filter_ext. intros v.
  now apply cell_eqb_same.
Qed.

Lemma count_app k l1 l2 : count k (l1 ++ l2) = count k l1 + count k l2.
Proof. unfold count. now rewrite filter_app, length_app. Qed.

Lemma count_single k v : count k [v] = if cell_eqb k v then 1 else 0.
Proof. unfold count. simpl. now destruct (cell_eqb k v). Qed.

Lemma count_zero k l :
  (forall v, In v l -> cell_eqb k v = false) -> count k l = 0.
Proof.
  intros H. unfold count. induction l as [|v l IH]; simpl; [reflexivity|].
  rewrite (H v) by (now left). apply IH. intros w Hw. apply H. now right.
Qed.

Lemma count_pos k v l : In v l -> cell_eqb k v = true -> 0 < count k l.
Proof.
  intros Hin E. unfold count. induction l as [|w l IH]; simpl; [contradiction|].
  destruct Hin as [->|Hin].
  - rewrite E. simpl. lia.
  - destruct (cell_eqb k w); simpl; auto with arith.
Qed.

Lemma tallied_nil : tallied [] [].
Proof. split; intros; contradiction. Qed.

(** One step of [tally] keeps the counts right. *)
Lemma tally_tallied l : forall pre acc,
  tallied pre acc -> tallied (pre ++ l) (tally l acc).
Proof.
  induction l as [|v l IH]; intros pre acc [Hc Hk]; simpl.
  - rewrite app_nil_r. now split.
  - replace (pre ++ v :: l) with ((pre ++ [v]) ++ l)
      by (now rewrite <- app_assoc).
    destruct (isna v) eqn:Hv.
    + apply IH. split.
      * intros k n Hin. destruct (Hc k n Hin) as [Hn ->]. split; [assumption|].
        rewrite count_app. rewrite count_single.
        destruct (cell_eqb k v) eqn:E; [|simpl; lia].
        apply cell_eqb_notna in E. destruct E as [_ E]. congruence.
      * intros w Hin Hw. apply in_app_or in Hin. destruct Hin as [Hin|[<-|[]]].
        -- now apply Hk.
        -- congruence.
    + destruct (existsb (fun kn => cell_eqb (fst kn) v) acc) eqn:Hex.
      * apply IH. split.
        -- intros k n Hin. apply in_map_iff in Hin.
           destruct Hin as ([k0 n0] & E & Hin). simpl in E.
           destruct (Hc k0 n0 Hin) as [Hn ->].
           rewrite count_app. rewrite count_single.
           destruct (cell_eqb k0 v) eqn:E0; injection E as <- <-;
             rewrite E0; simpl; split; auto; lia.
        -- intros w Hin Hw. apply in_app_or in Hin. destruct Hin as [Hin|[<-|[]]].
           ++ destruct (Hk w Hin Hw) as (k & n & Hin' & E).
              exists k, (if cell_eqb k v then S n else n). split; [|assumption].
              apply in_map_iff. exists (k, n). simpl. split; [|assumption].
              now destruct (cell_eqb k v).
           ++ apply existsb_exists in Hex. destruct Hex as ([k n] & Hin & E).
              simpl in E. exists k, (S n). split; [|assumption].
              apply in_map_iff. exists (k, n). simpl. now rewrite E.
      * assert (Hno : forall k n, In (k, n) acc -> cell_eqb k v = false).
        { intros k n Hin. destruct (cell_eqb k v) eqn:E; [|reflexivity].
          assert (existsb (fun kn => cell_eqb (fst kn) v) acc = true)
            by (apply existsb_exists; exists (k, n); auto).
          congruence. }
        apply IH. split.
        -- intros k n Hin. apply in_app_or in Hin. destruct Hin as [Hin|[E|[]]].
           ++ destruct (Hc k n Hin) as [Hn ->]. split; [assumption|].
              rewrite count_app. rewrite count_single.
              rewrite (Hno k _ Hin). simpl. lia.
           ++ injection E as <- <-. split; [assumption|].
              rewrite count_app. rewrite count_single.
              rewrite (cell_eqb_refl _ Hv). simpl.
              rewrite count_zero; [reflexivity|].
              intros w Hw. destruct (cell_eqb v w) eqn:E; [|reflexivity].
              destruct (cell_eqb_notna _ _ E) as [_ Hna].
              destruct (Hk w Hw Hna) as (k & n & Hin & E').
              apply cell_eqb_sym in E.
              pose proof (Hno k n Hin) as Hf.
              rewrite (cell_eqb_trans _ _ _ E' E) in Hf. discriminate Hf.
        -- intros w Hin Hw. apply in_app_or in Hin. destruct Hin as [Hin|[<-|[]]].
           ++ destruct (Hk w Hin Hw) as (k & n & Hin' & E).
              exists k, n. split; [apply in_or_app; now left | assumption].
           ++ exists v, 1. split; [apply in_or_app; right; now left|].
              now apply cell_eqb_refl.
Qed.

Lemma tally_ok l : tallied l (tally l []).
Proof. apply (tally_tallied l [] []), tallied_nil. Qed.

(** Sorting by decreasing count. *)

Lemma insert_desc_perm x l : Permutation (x :: l) (insert_desc x l).
Proof.
  induction l as [|y l IH]; simpl; [reflexivity|].
  destruct (Nat.leb (snd y) (snd x)); [reflexivity|].
  rewrite perm_swap. now apply perm_skip.
Qed.

Lemma sort_desc_perm l : Permutation l (sort_desc l).
Proof.
  induction l as [|x l IH]; simpl; [reflexivity|].
  rewrite <- insert_desc_perm. now apply perm_skip.
Qed.

Lemma insert_desc_sorted x l :
  StronglySorted by_count l -> StronglySorted by_count (insert_desc x l).
Proof.
  induction 1 as [|y l Hs IH Hy]; simpl.
  - repeat constructor.
  - destruct (Nat.leb (snd y) (snd x)) eqn:E.
    + apply Nat.leb_le in E. constructor; [now constructor|].
      constructor; [exact E|].
      eapply Forall_impl; [|exact Hy]. unfold by_count. intros z Hz. lia.
    + apply Nat.leb_gt in E. constructor; [assumption|].
      eapply Permutation_Forall; [apply insert_desc_perm|].
      constructor; [unfold by_count; lia | exact Hy].
Qed.

Lemma sort_desc_sorted l : StronglySorted by_count (sort_desc l).
Proof.
  induction l as [|x l IH]; simpl; [constructor | now apply insert_desc_sorted].
Qed.

Lemma in_firstn {A : Type} n (l : list A) x : In x (firstn n l) -> In x l.
Proof.
  intros H. rewrite <- (firstn_skipn n l). apply in_or_app. now left.
Qed.

Lemma in_skipn {A : Type} n (l : list A) x : In x (skipn n l) -> In x l.
Proof.
  intros H. rewrite <- (firstn_skipn n l). apply in_or_app. now right.
Qed.

Lemma sorted_firstn n l :
  StronglySorted by_count l -> StronglySorted by_count (firstn n l).
Proof.
  intros H. revert n. induction H as [|x l Hs IH Hx]; intros [|n]; simpl;
    try constructor; auto.
  apply Forall_forall. intros y Hy. rewrite Forall_forall in Hx.
  apply Hx. eapply in_firstn; eauto.
Qed.

Lemma sorted_descending l : StronglySorted by_count l -> descending l.
Proof.
  induction 1 as [|x l Hs IH Hx]; intros i a b Ha Hb.
  - destruct i; discriminate.
  - destruct i as [|i]; simpl in Ha, Hb.
    + injection Ha as <-. rewrite Forall_forall in Hx. apply Hx.
      destruct l; [discriminate|]. simpl in Hb. injection Hb as <-. now left.
    + eapply IH; eauto.
Qed.

(** Every entry after the first [n] counts no more than any of them. *)
Lemma sorted_beyond n l x y :
  StronglySorted by_count l ->
  In x (firstn n l) -> In y (skipn n l) -> snd y <= snd x.
Proof.
  intros H. revert n. induction H as [|z l Hs IH Hz]; intros n Hx Hy.
  - destruct n; contradiction.
  - destruct n as [|n]; simpl in Hx, Hy; [contradiction|].
    destruct Hx as [<-|Hx].
    + rewrite Forall_forall in Hz. apply Hz. eapply in_skipn; eauto.
    + eapply IH; eauto.
Qed.

(** [value_counts().head(n)] ranks the column. *)
Lemma head_value_counts_ranks n col :
  0 < n -> ranks n col (head n (value_counts col)).
Proof.
  intros Hn. unfold head, value_counts.
  pose proof (tally_ok col) as [Hc Hk].
  pose proof (sort_desc_sorted (tally col [])) as Hs.
  pose proof (sort_desc_perm (tally col [])) as Hp.
  set (L := sort_desc (tally col [])) in *.
  assert (HL : forall k c, In (k, c) L -> isna k = false /\ c = count k col).
  { intros k c Hin. apply Hc. eapply Permutation_in; [symmetry; exact Hp | exact Hin]. }
  assert (HK : forall v, In v col -> isna v = false ->
                 exists k c, In (k, c) L /\ cell_eqb k v = true).
  { intros v Hv Hna. destruct (Hk v Hv Hna) as (k & c & Hin & E).
    exists k, c. split; [|assumption]. eapply Permutation_in; eauto. }
  repeat split.
  - apply sorted_descending, sorted_firstn, Hs.
  - apply firstn_le_length.
  - apply (HL k c). eapply in_firstn; eauto.
  - apply (HL k c). eapply in_firstn; eauto.
  - intros v Hv Hna. destruct (HK v Hv Hna) as (k & c & Hin & E).
    destruct L as [|[k0 c0] rest]; [contradiction|].
    destruct n as [|n]; [lia|]. simpl.
    exists k0, c0, (firstn n rest). split; [reflexivity|].
    destruct (HL k c Hin) as [_ ->].
    rewrite <- (count_same _ _ col E).
    destruct Hin as [E0|Hin]; [injection E0 as <- <-; lia|].
    inversion Hs as [|? ? _ Hall]; subst. rewrite Forall_forall in Hall.
    destruct (HL k0 c0 (or_introl eq_refl)) as [_ ->].
    specialize (Hall _ Hin). unfold by_count in Hall. simpl in Hall.
    exact Hall.
  - intros v Hv Hna. destruct (HK v Hv Hna) as (k & c & Hin & E).
    rewrite <- (firstn_skipn n L) in Hin. apply in_app_or in Hin.
    destruct Hin as [Hin|Hin]; [left; eauto|].
    right. intros k' c' Hin'.
    pose proof (sorted_beyond n L _ _ Hs Hin' Hin) as Hle. simpl in Hle.
    assert (Hin2 : In (k, c) L) by (eapply in_skipn; eauto).
    destruct (HL k c Hin2) as [_ ->].
    now rewrite <- (count_same _ _ col E).
Qed.


(** ** Splitting a path *)

Lemma append_empty_r s : String.append s EmptyString = s.
Proof. induction s as [|c s IH]; simpl; [reflexivity | now rewrite IH]. Qed.

Lemma append_assoc s1 s2 s3 :
  String.append (String.append s1 s2) s3 = String.append s1 (String.append s2 s3).
Proof. induction s1 as [|c s1 IH]; simpl; [reflexivity | now rewrite IH]. Qed.

Lemma find_from_ge sep s : forall i k, find_from sep s i = Some k -> i <= k.
Proof.
  induction s as [|c s IH]; intros i k; cbn [find_from].
  - destruct (String.prefix sep EmptyString); [|intros E; discriminate E].
    intros E. injection E as <-. lia.
  - destruct (String.prefix sep (String c s)).
    + intros E. injection E as <-. lia.
    + intros E. apply IH in E. lia.
Qed.

(** Without an occurrence of the separator the text is one segment. *)
Lemma split_go_none sep s : forall cur i,
  find_from sep s i = None ->
  Py.split_go sep 0 cur s = [String.append cur s].
Proof.
  induction s as [|c s IH]; intros cur i; cbn [Py.split_go find_from].
  - intros _. now rewrite append_empty_r.
  - destruct (String.prefix sep (String c s)); [intros E; discriminate E|].
    intros H. rewrite (IH _ _ H), append_assoc. reflexivity.
Qed.

(** The first segment is the text before the first occurrence. *)
Lemma split_go_first sep s : forall cur i n,
  sep <> EmptyString ->
  find_from sep s i = Some (i + n) ->
  exists rest,
    Py.split_go sep 0 cur s = String.append cur (String.substring 0 n s) :: rest.
Proof.
  induction s as [|c s IH]; intros cur i n Hsep; cbn [Py.split_go find_from].
  - destruct sep; [contradiction | simpl; intros E; discriminate E].
  - destruct (String.prefix sep (String c s)).
    + intros E. injection E as E. assert (n = 0) by lia. subst n.
      simpl. rewrite append_empty_r. eauto.
    + intros E. pose proof (find_from_ge _ _ _ _ E) as Hge.
      destruct n as [|n]; [lia|].
      replace (i + S n) with (S i + n) in E by lia.
      destruct (IH (String.append cur (String c EmptyString)) _ _ Hsep E)
        as (rest & ->).
      exists rest. simpl. now rewrite append_assoc.
Qed.

Lemma substring_app s1 s2 :
  String.substring 0 (String.length s1) (String.append s1 s2) = s1.
Proof. induction s1 as [|c s1 IH]; simpl; [now destruct s2 | now rewrite IH]. Qed.

Lemma slice_from_app s1 s2 :
  Py.slice_from (String.length s1) (String.append s1 s2) = s2.
Proof. induction s1 as [|c s1 IH]; simpl; [reflexivity | exact IH]. Qed.

Lemma length_append s1 s2 :
  String.length (String.append s1 s2) = String.length s1 + String.length s2.
Proof. induction s1 as [|c s1 IH]; simpl; [reflexivity | now rewrite IH]. Qed.

(** The derived category of a path whose first [">>"] is at position [n]. *)
Lemma category_root_first s n :
  find ">>" s = Some n ->
  category_root (Str s) = Ok (Str (Py.slice_from 2 (String.substring 0 n s))).
Proof.
  intros H. unfold category_root, Py.split. cbn [bind].
  destruct (split_go_first ">>" s EmptyString 0 n) as (rest & ->);
    [discriminate | exact H |].
  reflexivity.
Qed.

Lemma category_root_whole s :
  find ">>" s = None ->
  category_root (Str s) = Ok (Str (Py.slice_from 2 s)).
Proof.
  intros H. unfold category_root, Py.split. cbn [bind].
  now rewrite (split_go_none ">>" s EmptyString 0 H).
Qed.

Lemma category_root_prefixed pre seg rest :
  String.length pre = 2 ->
  find ">>" (pre ++ seg ++ ">>" ++ rest)%string = Some (2 + String.length seg) ->
  category_root (Str (pre ++ seg ++ ">>" ++ rest)%string) = Ok (Str seg).
Proof.
  intros Hp Hf. rewrite (category_root_first _ _ Hf).
  rewrite <- Hp, <- length_append.
  change (pre ++ seg ++ ">>" ++ rest)%string
    with (String.append pre (String.append seg (String.append ">>" rest))).
  rewrite <- append_assoc, substring_app.
  now rewrite slice_from_app.
Qed.

Section Correctness.
Variable parse : string -> float.
Variable polarity : string -> float.
Variable fmt : cell -> string.

Lemma coerce_ok c df :
  mem c (columns df) = true ->
  coerce parse c df =
  Ok {| columns := columns df;
        rows := map (fun ir => (fst ir, coerce_cell parse c (snd ir))) (rows df) |}.
Proof.
  intros H. unfold coerce. rewrite (require_ok _ _ H). cbn [bind].
  rewrite (assign_pure c (fun r => Num (to_numeric parse (r c)))).
  now rewrite (add_column_present _ _ H).
Qed.

Lemma clean_runs df :
  forallb (fun c => mem c (columns df)) clean_columns = true ->
  clean parse df =
  Ok {| columns := kept_columns (columns df);
        rows := map (fun ir => (fst ir, clean_row parse (snd ir)))
                    (filter (fun ir => keeps parse (snd ir)) (rows df)) |}.
Proof.
  intros H. unfold clean_columns in H. rewrite forallb_app in H.
  apply andb_prop in H. destruct H as [Hu Hc].
  unfold clean, drop. rewrite (require_all_ok _ _ Hu). cbn [bind].
  cbn [forallb] in Hc.
  repeat (apply andb_prop in Hc; let H := fresh "Hc" in destruct Hc as [H Hc]).
  fold (kept_columns (columns df)).
  assert (K : forall c, mem c (columns df) = true -> mem c unused_columns = false ->
                        mem c (kept_columns (columns df)) = true).
  { intros c H1 H2. now rewrite mem_kept, H1, H2. }
  rewrite dropna_ok by (cbn [columns forallb]; rewrite K; auto).
  cbn [bind columns rows].
  rewrite fillna_ok by (cbn [columns]; auto).
  cbn [bind columns rows].
  rewrite coerce_ok by (cbn [columns]; auto).
  cbn [bind columns rows].
  rewrite coerce_ok by (cbn [columns]; auto).
  cbn [bind columns rows].
  rewrite dropna_ok by (cbn [columns forallb]; rewrite !K; auto).
  cbn [bind columns rows].
  rewrite require_ok by (cbn [columns]; auto).
  cbn [bind columns rows].
  rewrite !map_map.
  rewrite select_ok.
  2:{ cbn [rows]. apply Forall_forall. intros ir Hin.
      apply filter_In in Hin. destruct Hin as [Hin _].
      apply in_map_iff in Hin. destruct Hin as (ir' & <- & _).
      cbn. eauto. }
  cbn [bind columns rows].
  rewrite coerce_ok by (cbn [columns]; auto).
  cbn [bind columns rows].
  rewrite dropna_ok by (cbn [columns forallb]; rewrite !K; auto).
  cbn [bind columns rows].
  f_equal. f_equal.
  repeat (rewrite ?map_map, ?filter_map_comm, ?filter_filter).
  rewrite (filter_ext _ (fun ir => keeps parse (snd ir))).
  - reflexivity.
  - intros ir. unfold keeps. cbn.
    now rewrite !andb_true_r, !andb_assoc.
Qed.

Lemma drop_inv ls df df' :
  drop ls df = Ok df' ->
  forallb (fun c => mem c (columns df)) ls = true
  /\ columns df' = filter (fun c => negb (mem c ls)) (columns df).
Proof.
  unfold drop. intros H. apply bind_ok in H. destruct H as (u & Hu & H).
  injection H as <-. split; [eapply require_all_inv; eauto | reflexivity].
Qed.

Lemma dropna_inv cs df df' :
  dropna cs df = Ok df' ->
  forallb (fun c => mem c (columns df)) cs = true /\ columns df' = columns df.
Proof.
  unfold dropna. intros H. apply bind_ok in H. destruct H as (u & Hu & H).
  injection H as <-. split; [eapply require_all_inv; eauto | reflexivity].
Qed.

Lemma fillna_inv c v df df' :
  fillna c v df = Ok df' ->
  mem c (columns df) = true /\ columns df' = columns df.
Proof.
  unfold fillna. intros H. apply bind_ok in H. destruct H as (u & Hu & H).
  injection H as <-. split; [eapply require_inv; eauto | reflexivity].
Qed.

Lemma coerce_inv c df df' :
  coerce parse c df = Ok df' ->
  mem c (columns df) = true /\ columns df' = columns df.
Proof.
  unfold coerce. intros H. apply bind_ok in H. destruct H as (u & Hu & H).
  apply require_inv in Hu. split; [assumption|].
  rewrite (assign_pure c (fun r => Num (to_numeric parse (r c)))) in H.
  injection H as <-. cbn [columns]. now apply add_column_present.
Qed.

Lemma select_columns p df df' : select p df = Ok df' -> columns df' = columns df.
Proof.
  unfold select. intros H. apply bind_ok in H. destruct H as (m & _ & H).
  now injection H as <-.
Qed.

Lemma clean_inv df df' :
  clean parse df = Ok df' ->
  forallb (fun c => mem c (columns df)) clean_columns = true.
Proof.
  unfold clean. intros H.
  apply bind_ok in H. destruct H as (d0 & H0 & H).
  apply drop_inv in H0. destruct H0 as [Hu E0].
  assert (K : forall c, mem c (columns d0) = true -> mem c (columns df) = true).
  { intros c Hc. rewrite E0, mem_filter in Hc. now apply andb_prop in Hc. }
  apply bind_ok in H. destruct H as (d1 & H1 & H).
  apply dropna_inv in H1. destruct H1 as [Hb E1].
  apply bind_ok in H. destruct H as (d2 & H2 & H).
  apply fillna_inv in H2. destruct H2 as [Hd E2].
  apply bind_ok in H. destruct H as (d3 & H3 & H).
  apply coerce_inv in H3. destruct H3 as [Hr E3].
  apply bind_ok in H. destruct H as (d4 & H4 & H).
  apply coerce_inv in H4. destruct H4 as [Hp E4].
  apply bind_ok in H. destruct H as (d5 & H5 & H).
  apply dropna_inv in H5. destruct H5 as [_ E5].
  apply bind_ok in H. destruct H as (u6 & _ & H).
  apply bind_ok in H. destruct H as (d6 & H6 & H).
  apply select_columns in H6.
  apply bind_ok in H. destruct H as (d7 & H7 & H).
  apply coerce_inv in H7. destruct H7 as [Hq E7].
  rewrite H6, E5, E4, E3, E2, E1 in Hq.
  rewrite E3, E2, E1 in Hp. rewrite E2, E1 in Hr. rewrite E1 in Hd.
  cbn [forallb] in Hb. rewrite andb_true_r in Hb.
  unfold clean_columns. rewrite forallb_app, Hu. cbn [forallb andb].
  now rewrite !K by assumption.
Qed.


Lemma split_go_cons sep k cur s :
exists h t, Py.split_go sep k cur s = h :: t.
Proof.
revert k cur. induction s as [|c s IH]; intros k cur; cbn [Py.split_go]; [eauto|].
destruct k; [|apply IH].
destruct (String.prefix sep (String c s)); [eauto | apply IH].
Qed.

Lemma category_root_str s :
exists s', category_root (Str s) = Ok (Str s').
Proof.
unfold category_root, Py.split. cbn [bind].
destruct (split_go_cons ">>" 0 "" s) as (h & t & E). rewrite E.
cbn. eauto.
Qed.

Lemma category_root_ok_iff v :
(exists w, category_root v = Ok w) <-> exists s, v = Str s.
Proof.
split.
- intros (w & H). destruct v as [x|s]; [discriminate | eauto].
- intros (s & ->). destruct (category_root_str s) as (s' & E). eauto.
Qed.

Lemma sentiment_ok_iff v :
(exists w, sentiment polarity v = Ok w) <-> exists s, v = Str s.
Proof.
split.
- intros (w & H). destruct v as [x|s]; [discriminate | eauto].
- intros (s & ->). simpl. eauto.
Qed.

Lemma filled_description_str r :
(exists s, fill_description r "description" = Str s)
<-> (isna (r "description") = true \/ exists s, r "description" = Str s).
Proof.
unfold fill_description. cbn.
destruct (r "description") as [x|s]; simpl.
- destruct (F64.is_nan x) eqn:E; split.
  + intros _. now left.
  + intros _. now exists "".
  + intros (s & H). discriminate.
  + intros [H | (s & H)]; discriminate.
- split; eauto.
Qed.

Lemma str_accessor_text l :
Forall (fun v => exists s, v = Str s) l -> str_accessor Object l = Ok tt.
Proof.
intros H. unfold str_accessor. destruct H as [|v l (s & ->) _].
- reflexivity.
- reflexivity.
Qed.

Lemma str_accessor_inv d l u : str_accessor d l = Ok u -> d = Object.
Proof. destruct d; [discriminate | reflexivity]. Qed.

Lemma script_runs t :
has_columns script_columns t = true ->
Forall (fun ir => well_typed (snd ir)) (kept_rows parse t) ->
description_dtype (read_csv t) = Object ->
script parse polarity fmt t =
Ok {| category_counts :=
        head 10 (value_counts (column "product_category_tree"
                                      (final_frame parse polarity t)));
      brand_counts :=
        head 10 (value_counts (column "brand" (final_frame parse polarity t)));
      frame := final_frame parse polarity t;
      cleaned_data := to_csv fmt false (final_frame parse polarity t) |}.
Proof.
intros Hc Ht Hobj. unfold has_columns, script_columns in Hc.
rewrite forallb_app in Hc. apply andb_prop in Hc. destruct Hc as [Hc Hp].
cbn [forallb] in Hp. rewrite andb_true_r in Hp.
unfold script. cbv zeta. rewrite Hobj. rewrite (clean_runs (read_csv t)) by exact Hc.
cbn [bind].
fold (kept_rows parse t). change (columns (read_csv t)) with (t_columns t).
assert (Hc' := Hc). unfold clean_columns in Hc'. rewrite forallb_app in Hc'.
apply andb_prop in Hc'. destruct Hc' as [_ Hc'].
cbn [forallb] in Hc'.
repeat (apply andb_prop in Hc'; let H := fresh "Hc" in destruct Hc' as [H Hc']).
assert (K : forall c, mem c (t_columns t) = true -> mem c unused_columns = false ->
                      mem c (kept_columns (t_columns t)) = true).
{ intros c H1 H2. now rewrite mem_kept, H1, H2. }
unfold categorise. rewrite require_ok by (cbn [columns]; auto).
cbn [bind].
rewrite assign_ok.
2:{ cbn [rows]. apply Forall_forall. intros ir Hin.
    apply in_map_iff in Hin. destruct Hin as (ir' & <- & Hin).
    rewrite Forall_forall in Ht. apply Ht in Hin. destruct Hin as [(s & Hs) _].
    cbn. rewrite Hs. destruct (category_root_str s) as (s' & E). eauto. }
cbn [bind columns rows].
rewrite (add_column_present "product_category_tree") by auto.
rewrite map_map. cbn [fst snd].
rewrite require_ok by (cbn [columns]; auto).
cbn [bind].
unfold add_description_length.
rewrite require_ok by (cbn [columns]; auto).
cbn [bind].
rewrite str_accessor_text.
2:{ unfold column. cbn [rows]. rewrite map_map. apply Forall_forall. intros v Hin.
    apply in_map_iff in Hin. destruct Hin as (ir' & <- & Hin).
    rewrite Forall_forall in Ht. apply Ht in Hin. destruct Hin as [_ Hs].
    apply filled_description_str in Hs. destruct Hs as (s & Hs).
    cbn in Hs |- *. eauto. }
cbn [bind].
rewrite (assign_pure "description_length" (fun r => str_len (r "description"))).
cbn [bind columns rows]. rewrite map_map. cbn [fst snd].
unfold add_discount_percentage.
rewrite require_ok by (cbn [columns]; rewrite mem_add_column, K; auto).
rewrite require_ok by (cbn [columns]; rewrite mem_add_column, K; auto).
cbn [bind].
rewrite assign_ok.
2:{ cbn [rows]. apply Forall_forall. intros ir Hin.
    apply in_map_iff in Hin. destruct Hin as (ir' & <- & Hin).
    cbn. eauto. }
cbn [bind columns rows]. rewrite map_map. cbn [fst snd].
unfold add_sentiment.
rewrite require_ok by (cbn [columns]; rewrite !mem_add_column, K; auto).
cbn [bind].
rewrite assign_ok.
2:{ cbn [rows]. apply Forall_forall. intros ir Hin.
    apply in_map_iff in Hin. destruct Hin as (ir' & <- & Hin).
    rewrite Forall_forall in Ht. apply Ht in Hin. destruct Hin as [_ Hd].
    apply filled_description_str in Hd. destruct Hd as (s & Hs).
    cbn in Hs |- *. rewrite Hs. simpl. eauto. }
cbn [bind columns rows]. rewrite map_map. cbn [fst snd].
f_equal. unfold column, final_frame. cbn [rows]. rewrite !map_map.
f_equal.
Qed.

Lemma script_inv t out :
script parse polarity fmt t = Ok out ->
has_columns script_columns t = true
/\ Forall (fun ir => well_typed (snd ir)) (kept_rows parse t).
Proof.
unfold script. cbv zeta. intros H.
apply bind_ok in H. destruct H as (d1 & H1 & H).
assert (Hc := clean_inv _ _ H1).
rewrite (clean_runs _ Hc) in H1. injection H1 as <-.
change (columns (read_csv t)) with (t_columns t) in *.
fold (kept_rows parse t) in H.
apply bind_ok in H. destruct H as (d2 & H2 & H).
unfold categorise in H2.
apply bind_ok in H2. destruct H2 as (u & Hp & H2).
apply require_inv in Hp. cbn [columns] in Hp.
rewrite mem_kept in Hp. apply andb_prop in Hp. destruct Hp as [Hp _].
assert (Hcat := assign_inv _ _ _ _ H2).
rewrite assign_ok in H2 by exact Hcat. injection H2 as <-.
apply bind_ok in H. destruct H as (u1 & _ & H).
apply bind_ok in H. destruct H as (d3 & H3 & H).
unfold add_description_length in H3.
apply bind_ok in H3. destruct H3 as (u3 & _ & H3).
apply bind_ok in H3. destruct H3 as (u3' & _ & H3).
rewrite (assign_pure "description_length" (fun r => str_len (r "description"))) in H3.
injection H3 as <-.
apply bind_ok in H. destruct H as (d4 & H4 & H).
unfold add_discount_percentage in H4.
apply bind_ok in H4. destruct H4 as (u4 & _ & H4).
apply bind_ok in H4. destruct H4 as (u5 & _ & H4).
assert (Hdis := assign_inv _ _ _ _ H4).
rewrite assign_ok in H4 by exact Hdis. injection H4 as <-.
apply bind_ok in H. destruct H as (d5 & H5 & H).
unfold add_sentiment in H5.
apply bind_ok in H5. destruct H5 as (u6 & _ & H5).
apply assign_inv in H5.
split.
- unfold has_columns, script_columns. rewrite forallb_app, Hc. cbn.
  now rewrite Hp.
- cbn [rows] in Hcat, H5. rewrite !map_map in H5.
  rewrite Forall_forall in *. intros ir Hin. split.
  + specialize (Hcat (fst ir, clean_row parse (snd ir))).
    apply category_root_ok_iff. cbn in Hcat. apply Hcat.
    apply in_map_iff. eauto.
  + apply filled_description_str.
    apply sentiment_ok_iff. 
    specialize (H5 (fst ir, discount_row (length_row (categorise_row (clean_row parse (snd ir)))))).
    cbn in H5. apply H5. apply in_map_iff. exists ir. split; [reflexivity|assumption].
Qed.


Lemma script_inv_dtype t out :
script parse polarity fmt t = Ok out -> description_dtype (read_csv t) = Object.
Proof.
unfold script. cbv zeta. intros H.
apply bind_ok in H. destruct H as (d1 & _ & H).
apply bind_ok in H. destruct H as (d2 & _ & H).
apply bind_ok in H. destruct H as (u1 & _ & H).
apply bind_ok in H. destruct H as (d3 & H3 & _).
unfold add_description_length in H3.
apply bind_ok in H3. destruct H3 as (u3 & _ & H3).
apply bind_ok in H3. destruct H3 as (u3' & Hs & _).
exact (str_accessor_inv _ _ _ Hs).
Qed.

Lemma script_ok t out :
  script parse polarity fmt t = Ok out ->
  frame out = final_frame parse polarity t
  /\ category_counts out =
     head 10 (value_counts (column "product_category_tree" (frame out)))
  /\ brand_counts out = head 10 (value_counts (column "brand" (frame out)))
  /\ cleaned_data out = to_csv fmt false (frame out).
Proof.
  intros H. destruct (script_inv _ _ H) as [Hc Ht].
  rewrite (script_runs _ Hc Ht (script_inv_dtype _ _ H)) in H. injection H as <-.
  cbn [frame category_counts brand_counts cleaned_data]. auto.
Qed.

Lemma in_combine_seq {A : Type} (l : list A) a i (x : A) :
  In (i, x) (combine (seq a (List.length l)) l)
  <-> a <= i /\ nth_error l (i - a) = Some x.
Proof.
  revert a. induction l as [|y l IH]; intros a; simpl.
  - split; [tauto|]. intros [_ H]. destruct (i - a); discriminate.
  - rewrite IH. split.
    + intros [E | [Hle Hn]].
      * injection E as -> ->. rewrite Nat.sub_diag. simpl. auto.
      * split; [lia|]. replace (i - a) with (S (i - S a)) by lia. exact Hn.
    + intros [Hle Hn]. destruct (Nat.eq_dec a i) as [->|Hne].
      * left. rewrite Nat.sub_diag in Hn. simpl in Hn. now injection Hn as ->.
      * right. split; [lia|]. replace (i - a) with (S (i - S a)) in Hn by lia.
        exact Hn.
Qed.

Lemma in_read_csv t i r :
  In (i, r) (rows (read_csv t)) <-> nth_error (t_rows t) i = Some r.
Proof.
  unfold read_csv. cbn [rows]. rewrite in_combine_seq, Nat.sub_0_r.
  split; [tauto | split; [lia | assumption]].
Qed.

Lemma in_kept_rows t i r :
  In (i, r) (kept_rows parse t)
  <-> nth_error (t_rows t) i = Some r /\ keeps parse r = true.
Proof.
  unfold kept_rows. rewrite filter_In, in_read_csv. reflexivity.
Qed.

(** A label of the cleaned table is the position of a kept input row. *)
Lemma label_kept t i r :
  nth_error (t_rows t) i = Some r ->
  In i (labels (final_frame parse polarity t)) <-> keeps parse r = true.
Proof.
  intros Hr. unfold labels, final_frame. cbn [rows]. rewrite map_map. cbn [fst].
  rewrite in_map_iff. split.
  - intros ([j r'] & E & Hin). simpl in E. subst j.
    apply in_kept_rows in Hin. destruct Hin as [Hn Hk]. congruence.
  - intros Hk. exists (i, r). split; [reflexivity|].
    apply in_kept_rows. auto.
Qed.

(** A row of the cleaned table is [final_row] of a kept input row. *)
Lemma in_final_frame t i r' :
  In (i, r') (rows (final_frame parse polarity t))
  <-> exists r, nth_error (t_rows t) i = Some r /\ keeps parse r = true
                /\ r' = final_row parse polarity r.
Proof.
  unfold final_frame. cbn [rows]. rewrite in_map_iff. split.
  - intros ([j r] & E & Hin). simpl in E. injection E as -> <-.
    apply in_kept_rows in Hin. exists r. tauto.
  - intros (r & Hn & Hk & ->). exists (i, r). split; [reflexivity|].
    apply in_kept_rows. auto.
Qed.

Lemma keeps_true_iff r :
  keeps parse r = true
  <-> isna (r "brand") = false
      /\ F64.is_nan (to_numeric parse (r "retail_price")) = false
      /\ F64.ltb F64.zero (to_numeric parse (r "retail_price")) = true
      /\ F64.is_nan (to_numeric parse (r "discounted_price")) = false
      /\ F64.is_nan (to_numeric parse (r "product_rating")) = false.
Proof.
  unfold keeps. rewrite !andb_true_iff, !negb_true_iff. tauto.
Qed.

(** C1. A row of the input is in the cleaned table if and only if its brand
    is not missing, its retail price is a number and strictly positive, its
    discounted price is a number and its rating is a number; being a number
    means that [to_numeric] does not yield the missing value. *)
Theorem row_survives_iff_filters t out i r :
  script parse polarity fmt t = Ok out ->
  nth_error (t_rows t) i = Some r ->
  In i (labels (frame out))
  <-> isna (r "brand") = false
      /\ F64.is_nan (to_numeric parse (r "retail_price")) = false
      /\ F64.ltb F64.zero (to_numeric parse (r "retail_price")) = true
      /\ F64.is_nan (to_numeric parse (r "discounted_price")) = false
      /\ F64.is_nan (to_numeric parse (r "product_rating")) = false.
Proof.
  intros H Hr. apply script_ok in H. destruct H as (-> & _).
  rewrite (label_kept _ _ _ Hr). apply keeps_true_iff.
Qed.

(** The cells of a row of the cleaned table, from the input row. *)

Lemma final_retail_price r :
  final_row parse polarity r "retail_price" = Num (to_numeric parse (r "retail_price")).
Proof. reflexivity. Qed.

Lemma final_discounted_price r :
  final_row parse polarity r "discounted_price"
  = Num (to_numeric parse (r "discounted_price")).
Proof. reflexivity. Qed.

Lemma final_discount_percentage r :
  final_row parse polarity r "discount_percentage"
  = Num (F64.mul
           (F64.div (F64.sub (to_numeric parse (r "retail_price"))
                             (to_numeric parse (r "discounted_price")))
                    (to_numeric parse (r "retail_price")))
           F64.hundred).
Proof. reflexivity. Qed.

Lemma final_description r :
  final_row parse polarity r "description"
  = if isna (r "description") then Str "" else r "description".
Proof. reflexivity. Qed.

Lemma final_description_length r :
  final_row parse polarity r "description_length"
  = str_len (if isna (r "description") then Str "" else r "description").
Proof. reflexivity. Qed.

Lemma final_category r :
  final_row parse polarity r "product_category_tree"
  = value (category_root (r "product_category_tree")).
Proof. reflexivity. Qed.

Lemma final_brand r : final_row parse polarity r "brand" = r "brand".
Proof. reflexivity. Qed.

(** A row of the output comes from a kept, well-typed row of the input. *)
Lemma output_row t out i r' :
  script parse polarity fmt t = Ok out ->
  In (i, r') (rows (frame out)) ->
  exists r, nth_error (t_rows t) i = Some r /\ keeps parse r = true
            /\ well_typed r /\ r' = final_row parse polarity r.
Proof.
  intros H Hin. destruct (script_inv _ _ H) as [_ Ht].
  apply script_ok in H. destruct H as (E & _). rewrite E in Hin.
  apply in_final_frame in Hin. destruct Hin as (r & Hn & Hk & ->).
  exists r. repeat split; try assumption.
  - rewrite Forall_forall in Ht. specialize (Ht (i, r)).
    apply Ht, in_kept_rows. auto.
  - rewrite Forall_forall in Ht. specialize (Ht (i, r)).
    apply Ht, in_kept_rows. auto.
Qed.


(** C4. In every row of the cleaned table the description is a string and
    [description_length] is the number of its characters; a row whose
    description was missing is kept or dropped by the same filters as any
    other row, and once kept has the empty description and length 0; the
    filters do not read the description. *)
Theorem description_length_counts t out :
  script parse polarity fmt t = Ok out ->
  (forall i r, In (i, r) (rows (frame out)) ->
     exists s, r "description" = Str s
               /\ r "description_length" = Num (F64.of_nat (String.length s)))
  /\ (forall i r_in, nth_error (t_rows t) i = Some r_in ->
        isna (r_in "description") = true ->
        (In i (labels (frame out)) <-> keeps parse r_in = true)
        /\ forall r, In (i, r) (rows (frame out)) ->
             r "description" = Str ""
             /\ r "description_length" = Num F64.zero)
  /\ (forall r v, keeps parse (set_cell "description" v r) = keeps parse r).
Proof.
  intros H. split; [|split; [|reflexivity]].
  - intros i r Hin.
    destruct (output_row _ _ _ _ H Hin) as (r0 & _ & _ & [_ Hd] & ->).
    rewrite final_description, final_description_length.
    destruct Hd as [Hd | (s & Hs)].
    + rewrite Hd. exists "". split; reflexivity.
    + rewrite Hs. simpl. eauto.
  - intros i r_in Hn Hd. split.
    + destruct (script_ok _ _ H) as (-> & _). now apply label_kept.
    + intros r Hin.
      destruct (output_row _ _ _ _ H Hin) as (r0 & Hn0 & _ & _ & ->).
      assert (r0 = r_in) by congruence. subst r0.
      rewrite final_description, final_description_length, Hd.
      split; reflexivity.
Qed.

Lemma before_discount_ok t df :
  before_discount parse t = Ok df ->
  rows df
  = map (fun ir => (fst ir, length_row (categorise_row (clean_row parse (snd ir)))))
        (kept_rows parse t).
Proof.
  unfold before_discount. cbv zeta. intros H.
  apply bind_ok in H. destruct H as (d1 & H1 & H).
  assert (Hc := clean_inv _ _ H1).
  rewrite (clean_runs _ Hc) in H1. injection H1 as <-.
  fold (kept_rows parse t) in H.
  apply bind_ok in H. destruct H as (d2 & H2 & H).
  unfold categorise in H2.
  apply bind_ok in H2. destruct H2 as (u & _ & H2).
  assert (Hcat := assign_inv _ _ _ _ H2).
  rewrite assign_ok in H2 by exact Hcat. injection H2 as <-.
  unfold add_description_length in H.
  apply bind_ok in H. destruct H as (u3 & _ & H).
  apply bind_ok in H. destruct H as (u3' & _ & H).
  rewrite (assign_pure "description_length" (fun r => str_len (r "description"))) in H.
  injection H as <-. cbn [rows]. now rewrite !map_map.
Qed.

Lemma positive_not_zero x : F64.ltb F64.zero x = true -> F64.is_zero x = false.
Proof. destruct x as [s|s| |s m e]; try reflexivity. discriminate. Qed.

(** C5. On every row of the frame on which the discount is computed the
    retail price is a number strictly above zero, so the divisor of
    [(retail_price - discounted_price) / retail_price] is never a zero and
    the formula is evaluated without raising. *)
Theorem division_guarded t df i r :
  before_discount parse t = Ok df ->
  In (i, r) (rows df) ->
  exists R D,
    r "retail_price" = Num R /\ r "discounted_price" = Num D
    /\ F64.ltb F64.zero R = true /\ F64.is_zero R = false
    /\ discount r = Ok (Num (F64.mul (F64.div (F64.sub R D) R) F64.hundred)).
Proof.
  intros H Hin. rewrite (before_discount_ok _ _ H) in Hin.
  apply in_map_iff in Hin. destruct Hin as ([j r0] & E & Hin).
  simpl in E. injection E as -> <-.
  apply in_kept_rows in Hin. destruct Hin as [_ Hk].
  apply keeps_true_iff in Hk. destruct Hk as (_ & _ & Hp & _).
  exists (to_numeric parse (r0 "retail_price")),
         (to_numeric parse (r0 "discounted_price")).
  repeat split; try assumption. now apply positive_not_zero.
Qed.

Lemma final_columns_derived cs c :
  In c derived_columns -> In c (final_columns cs).
Proof.
  intros H. apply mem_true_iff. unfold final_columns.
  rewrite !mem_add_column.
  simpl in H. destruct H as [<-|[<-|[<-|[]]]]; cbn;
    rewrite ?orb_true_r; reflexivity.
Qed.

Lemma final_columns_kept cs c :
  In c cs -> ~ In c unused_columns -> In c (final_columns cs).
Proof.
  intros H1 H2. apply mem_true_iff. unfold final_columns.
  rewrite !mem_add_column, mem_kept.
  apply mem_true_iff in H1. rewrite H1.
  destruct (mem c unused_columns) eqn:E; [|reflexivity].
  apply mem_true_iff in E. contradiction.
Qed.

Lemma final_columns_only cs c :
  In c (final_columns cs) ->
  (In c cs /\ ~ In c unused_columns) \/ In c derived_columns.
Proof.
  intros H. apply mem_true_iff in H. unfold final_columns in H.
  rewrite !mem_add_column, mem_kept in H.
  rewrite !orb_true_iff, andb_true_iff, negb_true_iff in H.
  destruct H as [[[[H1 H2]|H]|H]|H].
  - left. split; [now apply mem_true_iff|].
    intros Hin. apply mem_true_iff in Hin. congruence.
  - apply String.eqb_eq in H. subst. right. simpl. auto.
  - apply String.eqb_eq in H. subst. right. simpl. auto.
  - apply String.eqb_eq in H. subst. right. simpl. auto.
Qed.

(** C9. The written file has the columns of the cleaned table as its
    header: the input columns the script keeps and the three derived
    ones, and no field for the row label.  It has one record for each row
    of the cleaned table, in order, holding the text of that row's cell
    for every column of the header. *)
Theorem cleaned_data_contents t out :
  script parse polarity fmt t = Ok out ->
  cleaned_data out = to_csv fmt false (frame out)
  /\ header (cleaned_data out) = columns (frame out)
  /\ (forall c, In c (header (cleaned_data out))
        <-> (In c (t_columns t) /\ ~ In c unused_columns) \/ In c derived_columns)
  /\ records (cleaned_data out)
     = map (fun ir => map (fun c => fmt (snd ir c)) (header (cleaned_data out)))
           (rows (frame out))
  /\ records (cleaned_data out)
     = map (fun ir => map (fun c => fmt (final_row parse polarity (snd ir) c))
                          (final_columns (t_columns t)))
           (kept_rows parse t)
  /\ Forall (fun rec => List.length rec = List.length (header (cleaned_data out)))
            (records (cleaned_data out)).
Proof.
  intros H. apply script_ok in H. destruct H as (Hf & _ & _ & Hd).
  rewrite Hd. cbn [to_csv header records app].
  split; [reflexivity|]. split; [reflexivity|].
  split; [|split; [|split]].
  - intros c. rewrite Hf. cbn [final_frame columns]. split.
    + apply final_columns_only.
    + intros [[H1 H2]|H]; [now apply final_columns_kept
                           | now apply final_columns_derived].
  - reflexivity.
  - rewrite Hf. cbn [final_frame columns rows]. now rewrite map_map.
  - apply Forall_forall. intros rec Hin. apply in_map_iff in Hin.
    destruct Hin as (ir & <- & _). now rewrite length_map.
Qed.

(** C3, as amended.  In a row of the cleaned table whose category path was
    a two-character prefix, a first segment, the first [">>"] of the path
    and the rest, the derived category is the first segment: all the text
    between the prefix and that delimiter, a space before the delimiter
    included. *)
Theorem category_is_first_segment t out i r r_in pre seg rest :
  script parse polarity fmt t = Ok out ->
  In (i, r) (rows (frame out)) ->
  nth_error (t_rows t) i = Some r_in ->
  r_in "product_category_tree" = Str (pre ++ seg ++ ">>" ++ rest)%string ->
  String.length pre = 2 ->
  find ">>" (pre ++ seg ++ ">>" ++ rest)%string = Some (2 + String.length seg) ->
  r "product_category_tree" = Str seg.
Proof.
  intros H Hin Hn Hc Hp Hf.
  destruct (output_row _ _ _ _ H Hin) as (r0 & Hn0 & _ & _ & ->).
  assert (r0 = r_in) by congruence. subst r0.
  rewrite final_category, Hc, (category_root_prefixed _ _ _ Hp Hf).
  reflexivity.
Qed.

(** C6, as amended.  On a category path without [">>"] the split and the
    prefix strip do not raise: the derived category is the path without
    its first two characters. *)
Theorem category_without_delimiter s :
  find ">>" s = None ->
  category_root (Str s) = Ok (Str (Py.slice_from 2 s)).
Proof. apply category_root_whole. Qed.

(** The derivation raises on a missing path and on nothing else. *)
Lemma category_root_raises v :
  (exists e, category_root v = Err e) <-> exists x, v = Num x.
Proof.
  split.
  - intros (e & H). destruct v as [x|s]; [eauto|].
    destruct (category_root_str s) as (s' & E). congruence.
  - intros (x & ->). simpl. eauto.
Qed.

(** A kept row without a category path ends the script. *)
Lemma missing_category_is_fatal t i r x :
  nth_error (t_rows t) i = Some r ->
  keeps parse r = true ->
  r "product_category_tree" = Num x ->
  exists e, script parse polarity fmt t = Err e.
Proof.
  intros Hn Hk Hx. destruct (script parse polarity fmt t) as [out|e] eqn:E; [|eauto].
  destruct (script_inv _ _ E) as [_ Ht]. rewrite Forall_forall in Ht.
  destruct (Ht (i, r)) as [(s & Hs) _]; [apply in_kept_rows; auto|].
  simpl in Hs. congruence.
Qed.

(** C7. Each of the two top-10 rankings lists at most ten values of its
    column of the cleaned table in decreasing order of row count: every
    entry's count is at least the next entry's, each count is the number
    of rows holding the value, the first entry has the highest count of
    the column, and no value left out has more rows than a listed one. *)
Theorem rankings_descending t out :
  script parse polarity fmt t = Ok out ->
  ranks 10 (column "product_category_tree" (frame out)) (category_counts out)
  /\ ranks 10 (column "brand" (frame out)) (brand_counts out).
Proof.
  intros H. apply script_ok in H. destruct H as (_ & -> & -> & _).
  split; apply head_value_counts_ranks; lia.
Qed.

(** C10. The filters put no condition on the discounted price beyond its
    being a number: a row with a brand, a positive numeric retail price, a
    numeric discounted price and a numeric rating is in the cleaned table
    whatever the discounted price is, zero, negative or above the retail
    price; and for float64 prices a discounted price above the retail
    price gives a discount strictly below zero. *)
Theorem survives_any_discounted_price t out i r :
  script parse polarity fmt t = Ok out ->
  nth_error (t_rows t) i = Some r ->
  isna (r "brand") = false ->
  F64.is_nan (to_numeric parse (r "retail_price")) = false ->
  F64.ltb F64.zero (to_numeric parse (r "retail_price")) = true ->
  F64.is_nan (to_numeric parse (r "discounted_price")) = false ->
  F64.is_nan (to_numeric parse (r "product_rating")) = false ->
  exists r' dp,
    In (i, r') (rows (frame out))
    /\ r' "discounted_price" = Num (to_numeric parse (r "discounted_price"))
    /\ r' "discount_percentage" = Num dp
    /\ (F64.valid (to_numeric parse (r "retail_price")) = true ->
        F64.valid (to_numeric parse (r "discounted_price")) = true ->
        F64.ltb (to_numeric parse (r "retail_price"))
                (to_numeric parse (r "discounted_price")) = true ->
        F64.ltb dp F64.zero = true).
Proof.
  intros H Hn Hb Hr Hp Hd Hq.
  assert (Hk : keeps parse r = true) by (apply keeps_true_iff; auto).
  apply script_ok in H. destruct H as (-> & _).
  exists (final_row parse polarity r). eexists.
  split; [apply in_final_frame; eauto|].
  split; [apply final_discounted_price|].
  split; [apply final_discount_percentage|].
  intros VR VD Hlt. now apply discount_negative.
Qed.

End Correctness.

(** ** The sample catalogue *)

Lemma sample_run : Sample.run Sample.catalogue = Ok (Sample.report_of Sample.catalogue).
Proof. vm_compute. reflexivity. Qed.

Lemma row_survives_iff_filters_witness :
  In 0 (labels (frame (Sample.report_of Sample.catalogue)))
  <-> isna (Sample.shorts "brand") = false
      /\ F64.is_nan (to_numeric Sample.parse (Sample.shorts "retail_price")) = false
      /\ F64.ltb F64.zero (to_numeric Sample.parse (Sample.shorts "retail_price")) = true
      /\ F64.is_nan (to_numeric Sample.parse (Sample.shorts "discounted_price")) = false
      /\ F64.is_nan (to_numeric Sample.parse (Sample.shorts "product_rating")) = false.
Proof.
  apply (row_survives_iff_filters Sample.parse Sample.polarity Sample.fmt
           Sample.catalogue (Sample.report_of Sample.catalogue) 0 Sample.shorts).
  - vm_compute. reflexivity.
  - reflexivity.
Defined.


Lemma sample_discount :
  final_row Sample.parse Sample.polarity Sample.shorts "discount_percentage"
  = Num (F64.of_Z 20).
Proof. vm_compute. reflexivity. Qed.


Lemma category_is_first_segment_witness :
  final_row Sample.parse Sample.polarity Sample.shorts "product_category_tree"
  = Str Sample.clothing_segment.
Proof.
  apply (category_is_first_segment Sample.parse Sample.polarity Sample.fmt
           Sample.catalogue (Sample.report_of Sample.catalogue) 0 _ Sample.shorts
           Sample.clothing_prefix Sample.clothing_segment Sample.clothing_rest).
  - vm_compute. reflexivity.
  - left. reflexivity.
  - reflexivity.
  - reflexivity.
  - reflexivity.
  - reflexivity.
Defined.

(** C3 as stated fails at its own example: the derived category of the
    path keeps the space before the delimiter. *)
Lemma clothing_category_keeps_space :
  exists out,
    Sample.run Sample.catalogue = Ok out
    /\ exists r, In (0, r) (rows (frame out))
                 /\ Sample.shorts "product_category_tree" = Str Sample.clothing_path
                 /\ r "product_category_tree" = Str "Clothing "
                 /\ r "product_category_tree" <> Str "Clothing".
Proof.
  exists (Sample.report_of Sample.catalogue). split.
  - vm_compute. reflexivity.
  - exists (final_row Sample.parse Sample.polarity Sample.shorts).
    split; [left; reflexivity|].
    split; [reflexivity|].
    split; [vm_compute; reflexivity|].
    vm_compute. intros E. discriminate E.
Qed.

Lemma description_length_counts_witness :
  (forall i r, In (i, r) (rows (frame (Sample.report_of Sample.catalogue))) ->
     exists s, r "description" = Str s
               /\ r "description_length" = Num (F64.of_nat (String.length s)))
  /\ (forall i r_in, nth_error (t_rows Sample.catalogue) i = Some r_in ->
        isna (r_in "description") = true ->
        (In i (labels (frame (Sample.report_of Sample.catalogue)))
         <-> keeps Sample.parse r_in = true)
        /\ forall r, In (i, r) (rows (frame (Sample.report_of Sample.catalogue))) ->
             r "description" = Str ""
             /\ r "description_length" = Num F64.zero)
  /\ (forall r v, keeps Sample.parse (set_cell "description" v r)
                  = keeps Sample.parse r).
Proof.
  apply (description_length_counts Sample.parse Sample.polarity Sample.fmt
           Sample.catalogue (Sample.report_of Sample.catalogue)).
  vm_compute. reflexivity.
Defined.

(** The row without a description is kept, with an empty description. *)
Lemma sample_missing_description :
  isna (Sample.no_description "description") = true
  /\ In 3 (labels (frame (Sample.report_of Sample.catalogue)))
  /\ final_row Sample.parse Sample.polarity Sample.no_description "description"
     = Str ""
  /\ final_row Sample.parse Sample.polarity Sample.no_description "description_length"
     = Num F64.zero.
Proof. vm_compute. repeat split; auto. Qed.

Lemma division_guarded_witness :
  exists R D,
    length_row (categorise_row (clean_row Sample.parse Sample.shorts)) "retail_price"
    = Num R
    /\ length_row (categorise_row (clean_row Sample.parse Sample.shorts))
         "discounted_price" = Num D
    /\ F64.ltb F64.zero R = true /\ F64.is_zero R = false
    /\ discount (length_row (categorise_row (clean_row Sample.parse Sample.shorts)))
       = Ok (Num (F64.mul (F64.div (F64.sub R D) R) F64.hundred)).
Proof.
  apply (division_guarded Sample.parse Sample.catalogue
           {| columns := add_column "description_length"
                           (kept_columns Sample.input_columns);
              rows := map (fun ir =>
                             (fst ir,
                              length_row (categorise_row
                                            (clean_row Sample.parse (snd ir)))))
                          (kept_rows Sample.parse Sample.catalogue) |} 0).
  - vm_compute. reflexivity.
  - left. reflexivity.
Defined.

Lemma category_without_delimiter_witness :
  category_root (Str "Clothing") = Ok (Str (Py.slice_from 2 "Clothing")).
Proof.
  apply (category_without_delimiter "Clothing"). reflexivity.
Defined.

(** C6 as stated fails: a path without the delimiter raises nothing; the
    row is kept and its category is the path without its first two
    characters. *)
Lemma flat_path_does_not_raise :
  find ">>" "Clothing" = None
  /\ category_root (Str "Clothing") = Ok (Str "othing")
  /\ exists out,
       Sample.run Sample.catalogue = Ok out
       /\ Sample.flat_path "product_category_tree" = Str "Clothing"
       /\ exists r, In (4, r) (rows (frame out))
                    /\ r "product_category_tree" = Str "othing".
Proof.
  split; [reflexivity|]. split; [reflexivity|].
  exists (Sample.report_of Sample.catalogue).
  split; [vm_compute; reflexivity|]. split; [reflexivity|].
  exists (final_row Sample.parse Sample.polarity Sample.flat_path).
  split; [|reflexivity]. vm_compute. auto 10.
Qed.

Lemma rankings_descending_witness :
  ranks 10 (column "product_category_tree" (frame (Sample.report_of Sample.catalogue)))
        (category_counts (Sample.report_of Sample.catalogue))
  /\ ranks 10 (column "brand" (frame (Sample.report_of Sample.catalogue)))
           (brand_counts (Sample.report_of Sample.catalogue)).
Proof.
  apply (rankings_descending Sample.parse Sample.polarity Sample.fmt Sample.catalogue).
  vm_compute. reflexivity.
Defined.

(** Equal counts stay in order of first appearance. *)
Lemma value_counts_ties :
  value_counts [Str "b"; Str "a"; Num F64.nan; Str "b"; Str "a"; Str "c"; Str "d"; Str "d"]
  = [(Str "b", 2); (Str "a", 2); (Str "d", 2); (Str "c", 1)].
Proof. reflexivity. Qed.

(** The rankings of the sample: three rows in [Clothing ], one in
    [othing]; three rows of brand Acme, one of Alisha. *)
Lemma sample_rankings :
  category_counts (Sample.report_of Sample.catalogue)
  = [(Str "Clothing ", 3); (Str "othing", 1)]
  /\ brand_counts (Sample.report_of Sample.catalogue)
     = [(Str "Acme", 3); (Str "Alisha", 1)].
Proof. vm_compute. split; reflexivity. Qed.

Lemma cleaned_data_contents_witness :
  let out := Sample.report_of Sample.catalogue in
  cleaned_data out = to_csv Sample.fmt false (frame out)
  /\ header (cleaned_data out) = columns (frame out)
  /\ (forall c, In c (header (cleaned_data out))
        <-> (In c (t_columns Sample.catalogue) /\ ~ In c unused_columns)
            \/ In c derived_columns)
  /\ records (cleaned_data out)
     = map (fun ir => map (fun c => Sample.fmt (snd ir c)) (header (cleaned_data out)))
           (rows (frame out))
  /\ records (cleaned_data out)
     = map (fun ir =>
              map (fun c => Sample.fmt (final_row Sample.parse Sample.polarity (snd ir) c))
                  (final_columns (t_columns Sample.catalogue)))
           (kept_rows Sample.parse Sample.catalogue)
  /\ Forall (fun rec => List.length rec = List.length (header (cleaned_data out)))
            (records (cleaned_data out)).
Proof.
  apply (cleaned_data_contents Sample.parse Sample.polarity Sample.fmt Sample.catalogue).
  vm_compute. reflexivity.
Defined.

(** The file written for the sample. *)
Lemma sample_cleaned_data :
  cleaned_data (Sample.report_of Sample.catalogue)
  = {| header :=
         ["product_name"; "product_category_tree"; "retail_price";
          "discounted_price"; "description"; "product_rating"; "brand";
          "description_length"; "discount_percentage"; "sentiment"];
       records :=
         [["Cycling Shorts"; "Clothing "; "#"; "#"; "Cotton shorts"; "#"; "Alisha";
           "#"; "#"; "#"];
          ["Cycling Shorts"; "Clothing "; "#"; "#"; ""; "#"; "Acme"; "#"; "#"; "#"];
          ["Cycling Shorts"; "othing"; "#"; "#"; "Plain"; "#"; "Acme"; "#"; "#"; "#"];
          ["Cycling Shorts"; "Clothing "; "#"; "#"; "Dear"; "#"; "Acme"; "#"; "#"; "#"]]
    |}.
Proof. vm_compute. reflexivity. Qed.

Lemma survives_any_discounted_price_witness :
  exists r' dp,
    In (5, r') (rows (frame (Sample.report_of Sample.catalogue)))
    /\ r' "discounted_price"
       = Num (to_numeric Sample.parse (Sample.marked_up "discounted_price"))
    /\ r' "discount_percentage" = Num dp
    /\ (F64.valid (to_numeric Sample.parse (Sample.marked_up "retail_price")) = true ->
        F64.valid (to_numeric Sample.parse (Sample.marked_up "discounted_price")) = true ->
        F64.ltb (to_numeric Sample.parse (Sample.marked_up "retail_price"))
                (to_numeric Sample.parse (Sample.marked_up "discounted_price")) = true ->
        F64.ltb dp F64.zero = true).
Proof.
  apply (survives_any_discounted_price Sample.parse Sample.polarity Sample.fmt
           Sample.catalogue (Sample.report_of Sample.catalogue) 5 Sample.marked_up).
  - vm_compute. reflexivity.
  - reflexivity.
  - reflexivity.
  - reflexivity.
  - reflexivity.
  - reflexivity.
  - reflexivity.
Defined.

(** Discounted prices above the retail price, zero and below zero, on rows
    that are kept: the discounts are -25, 100 and 200. *)
Lemma sample_discounts :
  final_row Sample.parse Sample.polarity Sample.marked_up "discount_percentage"
  = Num (F64.of_Z (-25))
  /\ final_row Sample.parse Sample.polarity Sample.flat_path "discount_percentage"
     = Num (F64.of_Z 100)
  /\ value (discount (Sample.product "x" (Str "b") (Sample.n 500) (Sample.n (-500))
                                     (Sample.n 1) (Str "d")))
     = Num (F64.of_Z 200)
  /\ keeps Sample.parse (Sample.product "x" (Str "b") (Sample.n 500) (Sample.n (-500))
                                        (Sample.n 1) (Str "d")) = true.
Proof. vm_compute. repeat split; reflexivity. Qed.

(** * Further properties of the script *)

(** ** float64: signs and exact quotients *)

Section Signs.

Local Open Scope Z_scope.





Lemma digits_lt_lt p q : digits p < digits q -> (p < q)%positive.
Proof.
  intros H. destruct (Pos.lt_total p q) as [|[->|Hgt]]; [assumption|lia|].
  assert (Hle : (q <= p)%positive) by lia.
  apply digits_mono in Hle. lia.
Qed.



(** A finite number other than zero divided by itself is one. *)
Lemma div_self s m e :
  F64.div (S754_finite s m e) (S754_finite s m e) = F64.of_Z 1.
Proof.
  unfold F64.div, SFdiv, SFdiv_core_binary. cbn [Zdigits2].
  replace (Zpos (digits2_pos m) + e - (Zpos (digits2_pos m) + e)) with 0 by lia.
  rewrite Z.sub_diag. rewrite fexp_eq.
  change (Z.min (Z.max (0 - 53) (-1074)) 0) with (-53).
  change (0 - -53) with 53.
  cbv iota.
  assert (E : Z.div_eucl (Z.shiftl (Zpos m) 53) (Zpos m) = (2 ^ 53, 0)).
  { pose proof (Z_div_mod (Z.shiftl (Zpos m) 53) (Zpos m) eq_refl) as Hd.
    destruct (Z.div_eucl (Z.shiftl (Zpos m) 53) (Zpos m)) as [q r].
    destruct Hd as [Hq Hr]. rewrite Z.shiftl_mul_pow2 in Hq by lia.
    assert (q = 2 ^ 53) by nia. subst q.
    f_equal. lia. }
  rewrite E.
  assert (L : new_location (Zpos m) 0 = loc_Exact).
  { unfold new_location, new_location_even, new_location_odd.
    now destruct (Z.even (Zpos m)). }
  rewrite L. destruct s; vm_compute; reflexivity.
Qed.

Lemma sub_self s m e :
  F64.sub (S754_finite s m e) (S754_finite s m e) = F64.zero.
Proof.
  unfold F64.sub, SFsub. rewrite Z.sub_diag. reflexivity.
Qed.

End Signs.

(** ** The derived category *)

Lemma prefix_substring sep : forall n s,
  String.prefix sep (String.substring 0 n s) = true -> String.prefix sep s = true.
Proof.
  induction sep as [|a sep IH]; intros n s; [intros _; now destruct s|].
  destruct n as [|n], s as [|b s]; simpl; try (intros H; discriminate H).
  destruct (ascii_dec a b); [apply IH | intros H; discriminate H].
Qed.

Lemma find_from_none_index sep s : forall i j,
  find_from sep s i = None -> find_from sep s j = None.
Proof.
  induction s as [|c s IH]; intros i j; cbn [find_from].
  - destruct (String.prefix sep EmptyString); [intros H; discriminate H | reflexivity].
  - destruct (String.prefix sep (String c s)); [intros H; discriminate H | apply IH].
Qed.

Lemma find_from_none_slice sep k : forall s i j,
  find_from sep s i = None -> find_from sep (Py.slice_from k s) j = None.
Proof.
  induction k as [|k IH]; intros s i j H.
  - cbn [Py.slice_from]. eapply find_from_none_index; eauto.
  - destruct s as [|c s]; cbn [Py.slice_from].
    + eapply find_from_none_index; eauto.
    + cbn [find_from] in H.
      destruct (String.prefix sep (String c s)); [discriminate H|].
      eapply IH; eauto.
Qed.

(** No occurrence of the separator lies before the first. *)
Lemma find_from_substring sep s : forall i n j,
  sep <> EmptyString ->
  find_from sep s i = Some (i + n) ->
  find_from sep (String.substring 0 n s) j = None.
Proof.
  induction s as [|c s IH]; intros i n j Hsep; cbn [find_from].
  - destruct sep; [contradiction | simpl; intros E; discriminate E].
  - destruct (String.prefix sep (String c s)) eqn:P.
    + intros E. injection E as E. assert (n = 0) by lia. subst n.
      simpl. destruct sep; [contradiction | reflexivity].
    + intros E. pose proof (find_from_ge _ _ _ _ E) as Hge.
      destruct n as [|n]; [lia|].
      replace (i + S n) with (S i + n) in E by lia.
      change (String.substring 0 (S n) (String c s))
        with (String c (String.substring 0 n s)).
      cbn [find_from].
      destruct (String.prefix sep (String c (String.substring 0 n s))) eqn:P'.
      * apply (prefix_substring sep (S n) (String c s)) in P'. congruence.
      * eapply IH; eauto.
Qed.

Lemma find_from_bound sep s : forall i n,
  find_from sep s i = Some (i + n) -> n <= String.length s.
Proof.
  induction s as [|c s IH]; intros i n; cbn [find_from].
  - destruct (String.prefix sep EmptyString); [|intros E; discriminate E].
    intros E. injection E as E. simpl. lia.
  - destruct (String.prefix sep (String c s)).
    + intros E. injection E as E. simpl. lia.
    + intros E. pose proof (find_from_ge _ _ _ _ E) as Hge.
      destruct n as [|n]; [lia|].
      replace (i + S n) with (S i + n) in E by lia.
      apply IH in E. simpl. lia.
Qed.

Lemma length_slice_from k : forall s,
  String.length (Py.slice_from k s) = String.length s - k.
Proof.
  induction k as [|k IH]; intros s; simpl; [lia|].
  destruct s as [|c s]; simpl; [reflexivity | apply IH].
Qed.

Lemma length_substring n : forall s,
  n <= String.length s -> String.length (String.substring 0 n s) = n.
Proof.
  induction n as [|n IH]; intros s H.
  - destruct s; reflexivity.
  - destruct s as [|c s]; simpl in *; [lia|]. rewrite IH; lia.
Qed.

(** The derived category has no delimiter in it, and its length is the
    position of the first delimiter of the path, or the length of a path
    without one, less the two characters of the prefix. *)
Lemma category_root_shape s :
  exists cat,
    category_root (Str s) = Ok (Str cat)
    /\ find ">>" cat = None
    /\ String.length cat
       = match find ">>" s with
         | Some n => n
         | None => String.length s
         end - 2.
Proof.
  destruct (find ">>" s) as [n|] eqn:F.
  - exists (Py.slice_from 2 (String.substring 0 n s)).
    split; [now apply category_root_first|]. split.
    + unfold find. eapply find_from_none_slice.
      apply (find_from_substring ">>" s 0 n 0); [discriminate | exact F].
    + rewrite length_slice_from, length_substring; [reflexivity|].
      now apply (find_from_bound ">>" s 0 n).
  - exists (Py.slice_from 2 s).
    split; [now apply category_root_whole|]. split.
    + unfold find. eapply find_from_none_slice. exact F.
    + now rewrite length_slice_from.
Qed.

(** ** Counts: one entry for a key, every value counted once *)

Lemma keyed_nil : keyed [].
Proof. split; [constructor | intros a b []]. Qed.

Lemma list_sum_perm l1 l2 : Permutation l1 l2 -> list_sum l1 = list_sum l2.
Proof. induction 1; simpl; lia. Qed.

Lemma keyed_perm l1 l2 : Permutation l1 l2 -> keyed l1 -> keyed l2.
Proof.
  intros Hp [Hn Hk]. split.
  - eapply Permutation_NoDup; [apply Permutation_map; exact Hp | exact Hn].
  - intros a b Ha Hb E.
    apply Hk; [eapply Permutation_in; [symmetry; exact Hp | exact Ha]
              |eapply Permutation_in; [symmetry; exact Hp | exact Hb]
              |exact E].
Qed.

(** With keys kept apart, one more occurrence of a listed value adds one
    to the total. *)
Lemma bump_sum v acc :
  keyed acc ->
  existsb (fun kn => cell_eqb (fst kn) v) acc = true ->
  list_sum (map snd (map (fun kn => if cell_eqb (fst kn) v
                                    then (fst kn, S (snd kn)) else kn) acc))
  = S (list_sum (map snd acc)).
Proof.
  induction acc as [|a acc IH]; intros [Hn Hk] Hex; [discriminate Hex|].
  simpl in Hex. simpl map. inversion Hn as [|? ? Hna Hn']; subst.
  assert (Hacc : keyed acc).
  { split; [assumption|]. intros x y Hx Hy. apply Hk; now right. }
  destruct (cell_eqb (fst a) v) eqn:E.
  - assert (Hrest : map (fun kn => if cell_eqb (fst kn) v
                                   then (fst kn, S (snd kn)) else kn) acc = acc).
    { rewrite <- (map_id acc) at 2. apply map_ext_in. intros b Hb.
      destruct (cell_eqb (fst b) v) eqn:Eb; [|reflexivity].
      exfalso. apply Hna.
      assert (Hab : cell_eqb (fst a) (fst b) = true).
      { eapply cell_eqb_trans; [exact E | now apply cell_eqb_sym]. }
      rewrite (Hk a b (or_introl eq_refl) (or_intror Hb) Hab).
      now apply in_map. }
    rewrite Hrest. simpl. lia.
  - simpl in Hex. simpl. rewrite (IH Hacc Hex). lia.
Qed.

Lemma tally_keyed l : forall acc, keyed acc -> keyed (tally l acc).
Proof.
  induction l as [|v l IH]; intros acc Hacc; simpl; [assumption|].
  destruct (isna v) eqn:Hv; [now apply IH|].
  destruct (existsb (fun kn => cell_eqb (fst kn) v) acc) eqn:Hex; apply IH.
  - destruct Hacc as [Hn Hk]. split.
    + rewrite map_map.
      rewrite (map_ext _ fst); [assumption|].
      intros kn. now destruct (cell_eqb (fst kn) v).
    + intros a b Ha Hb. apply in_map_iff in Ha, Hb.
      destruct Ha as (a0 & <- & Ha), Hb as (b0 & <- & Hb).
      assert (Ea : forall kn : cell * nat,
                 fst (if cell_eqb (fst kn) v then (fst kn, S (snd kn)) else kn)
                 = fst kn) by (intros kn; now destruct (cell_eqb (fst kn) v)).
      rewrite !Ea. now apply Hk.
  - assert (Hno : forall kn, In kn acc -> cell_eqb (fst kn) v = false).
    { intros kn Hin. destruct (cell_eqb (fst kn) v) eqn:E; [|reflexivity].
      assert (existsb (fun kn => cell_eqb (fst kn) v) acc = true)
        by (apply existsb_exists; eauto).
      congruence. }
    destruct Hacc as [Hn Hk]. split.
    + rewrite map_app. simpl. apply NoDup_app; [assumption | repeat constructor; intros [] |].
      intros k Hin [<-|[]]. apply in_map_iff in Hin.
      destruct Hin as (kn & <- & Hin).
      pose proof (Hno kn Hin) as Hf.
      rewrite (cell_eqb_refl (fst kn)) in Hf; [discriminate Hf|].
      congruence.
    + intros a b Ha Hb E. apply in_app_or in Ha, Hb.
      destruct Ha as [Ha|[<-|[]]], Hb as [Hb|[<-|[]]].
      * now apply Hk.
      * simpl in E. rewrite (Hno a Ha) in E. discriminate E.
      * simpl in E. apply cell_eqb_sym in E. rewrite (Hno b Hb) in E. discriminate E.
      * reflexivity.
Qed.

Lemma tally_sum l : forall acc,
  keyed acc ->
  list_sum (map snd (tally l acc)) = list_sum (map snd acc) + present l.
Proof.
  unfold present.
  induction l as [|v l IH]; intros acc Hacc; simpl; [lia|].
  destruct (isna v) eqn:Hv; simpl; [now apply IH|].
  pose proof (tally_keyed [v] acc Hacc) as Hstep. simpl in Hstep. rewrite Hv in Hstep.
  destruct (existsb (fun kn => cell_eqb (fst kn) v) acc) eqn:Hex.
  - rewrite IH by exact Hstep. rewrite bump_sum by assumption. lia.
  - rewrite IH by exact Hstep. rewrite map_app, list_sum_app. simpl. lia.
Qed.

(** [value_counts] lists every value that is not missing under one key,
    and its counts add up to the number of such values. *)
Lemma value_counts_total col :
  keyed (value_counts col)
  /\ list_sum (map snd (value_counts col)) = present col.
Proof.
  unfold value_counts.
  pose proof (sort_desc_perm (tally col [])) as Hp.
  split.
  - eapply keyed_perm; [exact Hp | apply tally_keyed, keyed_nil].
  - rewrite <- (list_sum_perm _ _ (Permutation_map snd Hp)).
    now rewrite tally_sum by apply keyed_nil.
Qed.

Lemma head_short {A : Type} n (l : list A) :
  List.length (head n l) < n -> head n l = l.
Proof.
  unfold head. rewrite length_firstn. intros H.
  apply firstn_all2. lia.
Qed.

(** ** Errors of the frame operations *)

Lemma require_err c df :
  mem c (columns df) = false -> require c df = Err (KeyError c).
Proof. unfold require. now intros ->. Qed.

Lemma require_all_err cs df :
  forallb (fun c => mem c (columns df)) cs = false ->
  exists c, require_all cs df = Err (KeyError c)
            /\ In c cs /\ mem c (columns df) = false.
Proof.
  induction cs as [|c cs IH]; simpl; [intros H; discriminate H|].
  destruct (mem c (columns df)) eqn:M; simpl.
  - intros H. destruct (IH H) as (c' & E & Hin & Hm).
    exists c'. rewrite (require_ok _ _ M). simpl. auto.
  - intros _. exists c. rewrite (require_err _ _ M). simpl. auto.
Qed.

Lemma mapM_err {A B : Type} (f : A -> result B) (e : error) (l : list A) :
  Forall (fun a => (exists b, f a = Ok b) \/ f a = Err e) l ->
  Exists (fun a => f a = Err e) l ->
  mapM f l = Err e.
Proof.
  induction 1 as [|a l Ha Hl IH]; intros Hex; [inversion Hex|].
  simpl. destruct Ha as [(b & Hb) | Ha].
  - rewrite Hb. simpl. inversion Hex as [? ? H|? ? H]; subst; [congruence|].
    now rewrite (IH H).
  - now rewrite Ha.
Qed.

Section Further.

Variable parse : string -> float.
Variable polarity : string -> float.
Variable fmt : cell -> string.

Lemma clean_key_error df :
  forallb (fun c => mem c (columns df)) clean_columns = false ->
  exists c, clean parse df = Err (KeyError c)
            /\ In c clean_columns /\ mem c (columns df) = false.
Proof.
  unfold clean_columns. rewrite forallb_app. intros H.
  unfold clean, drop.
  destruct (forallb (fun c => mem c (columns df)) unused_columns) eqn:Hu.
  - simpl in H. rewrite (require_all_ok _ _ Hu). cbn [bind].
    fold (kept_columns (columns df)).
    assert (K : forall c, mem c unused_columns = false ->
                          mem c (kept_columns (columns df)) = mem c (columns df)).
    { intros c Hc. now rewrite mem_kept, Hc, andb_true_r. }
    assert (fails : forall c (m : result DataFrame),
               In c ["brand"; "description"; "retail_price"; "discounted_price";
                     "product_rating"] ->
               mem c (columns df) = false ->
               m = Err (KeyError c) ->
               exists c0, m = Err (KeyError c0)
                          /\ In c0 (unused_columns
                                    ++ ["brand"; "description"; "retail_price";
                                        "discounted_price"; "product_rating"])
                          /\ mem c0 (columns df) = false).
    { intros c m Hin Hm ->. exists c. repeat split; auto.
      apply in_or_app. now right. }
    destruct (mem "brand" (columns df)) eqn:Hb.
    2:{ apply (fails "brand"); [simpl; auto | assumption |].
        unfold dropna. cbn [require_all].
        rewrite require_err by (cbn [columns]; rewrite K by reflexivity; assumption). reflexivity. }
    rewrite dropna_ok by (cbn [columns forallb]; rewrite ?K by reflexivity; rewrite ?Hb, ?Hd, ?Hr, ?Hp; reflexivity).
    cbn [bind columns rows].
    destruct (mem "description" (columns df)) eqn:Hd.
    2:{ apply (fails "description"); [simpl; auto | assumption |].
        unfold fillna.
        rewrite require_err by (cbn [columns]; rewrite K by reflexivity; assumption). reflexivity. }
    rewrite fillna_ok by (cbn [columns forallb]; rewrite ?K by reflexivity; rewrite ?Hb, ?Hd, ?Hr, ?Hp; reflexivity).
    cbn [bind columns rows].
    destruct (mem "retail_price" (columns df)) eqn:Hr.
    2:{ apply (fails "retail_price"); [simpl; auto | assumption |].
        unfold coerce.
        rewrite require_err by (cbn [columns]; rewrite K by reflexivity; assumption). reflexivity. }
    rewrite coerce_ok by (cbn [columns forallb]; rewrite ?K by reflexivity; rewrite ?Hb, ?Hd, ?Hr, ?Hp; reflexivity).
    cbn [bind columns rows].
    destruct (mem "discounted_price" (columns df)) eqn:Hp.
    2:{ apply (fails "discounted_price"); [simpl; auto 6 | assumption |].
        unfold coerce.
        rewrite require_err by (cbn [columns]; rewrite K by reflexivity; assumption). reflexivity. }
    rewrite coerce_ok by (cbn [columns forallb]; rewrite ?K by reflexivity; rewrite ?Hb, ?Hd, ?Hr, ?Hp; reflexivity).
    cbn [bind columns rows].
    rewrite dropna_ok by (cbn [columns forallb]; rewrite ?K by reflexivity; rewrite ?Hb, ?Hd, ?Hr, ?Hp; reflexivity).
    cbn [bind columns rows].
    rewrite require_ok by (cbn [columns forallb]; rewrite ?K by reflexivity; rewrite ?Hb, ?Hd, ?Hr, ?Hp; reflexivity).
    cbn [bind columns rows].
    rewrite !map_map.
    rewrite select_ok.
    2:{ cbn [rows]. apply Forall_forall. intros ir Hin.
        apply filter_In in Hin. destruct Hin as [Hin _].
        apply in_map_iff in Hin. destruct Hin as (ir' & <- & _).
        cbn. eauto. }
    cbn [bind columns rows].
    destruct (mem "product_rating" (columns df)) eqn:Hq.
    + simpl in H. discriminate H.
    + apply (fails "product_rating"); [simpl; auto 8 | assumption |].
      unfold coerce.
      rewrite require_err by (cbn [columns]; rewrite K by reflexivity; assumption). reflexivity.
  - destruct (require_all_err _ _ Hu) as (c & E & Hin & Hm).
    exists c. rewrite E. cbn [bind].
    split; [reflexivity|]. split; [apply in_or_app; now left | assumption].
Qed.





(** X2. When the input lacks a column the script names, the script ends
    with a [KeyError] for a column that is named and missing, whatever
    the rows are. *)
Theorem missing_column_raises t :
  has_columns script_columns t = false ->
  exists c, script parse polarity fmt t = Err (KeyError c)
            /\ In c script_columns /\ ~ In c (t_columns t).
Proof.
  unfold has_columns, script_columns. rewrite forallb_app. intros H.
  unfold script.
  destruct (forallb (fun c => mem c (t_columns t)) clean_columns) eqn:Hc.
  - simpl in H. rewrite andb_true_r in H.
    rewrite (clean_runs parse (read_csv t)) by exact Hc. cbn [bind].
    unfold categorise.
    rewrite require_err
      by (cbn [columns]; rewrite mem_kept;
          change (columns (read_csv t)) with (t_columns t); now rewrite H).
    exists "product_category_tree". split; [reflexivity|]. split.
    + apply in_or_app. right. now left.
    + intros Hin. apply mem_true_iff in Hin. congruence.
  - destruct (clean_key_error (read_csv t) Hc) as (c & E & Hin & Hm).
    exists c. rewrite E. split; [reflexivity|]. split.
    + apply in_or_app. now left.
    + intros Hin'. apply mem_true_iff in Hin'.
      change (columns (read_csv t)) with (t_columns t) in Hm. congruence.
Qed.

(** X3. A row that passes the filters and has no category path ends the
    script with an [AttributeError]. *)
Theorem missing_category_raises t i r x :
  has_columns script_columns t = true ->
  nth_error (t_rows t) i = Some r ->
  keeps parse r = true ->
  r "product_category_tree" = Num x ->
  script parse polarity fmt t = Err AttributeError.
Proof.
  intros Hc Hn Hk Hx.
  unfold has_columns, script_columns in Hc. rewrite forallb_app in Hc.
  apply andb_prop in Hc. destruct Hc as [Hc Hp].
  cbn [forallb] in Hp. rewrite andb_true_r in Hp.
  unfold script. rewrite (clean_runs parse (read_csv t)) by exact Hc.
  cbn [bind]. fold (kept_rows parse t).
  change (columns (read_csv t)) with (t_columns t).
  unfold categorise.
  rewrite require_ok
    by (cbn [columns]; rewrite mem_kept, Hp; reflexivity).
  cbn [bind]. unfold assign. cbn [rows].
  rewrite (mapM_err _ AttributeError); [reflexivity| |].
  - apply Forall_forall. intros ir _. cbn.
    destruct (snd ir "product_category_tree") as [y|s]; [now right|].
    left. destruct (category_root_str s) as (s' & ->). simpl. eauto.
  - apply Exists_exists. exists (i, clean_row parse r). split.
    + apply in_map_iff. exists (i, r). split; [reflexivity|].
      apply in_kept_rows. auto.
    + cbn. rewrite Hx. reflexivity.
Qed.

Lemma kept_labels_sorted {A : Type} (p : nat * A -> bool) (l : list A) : forall a,
  StronglySorted lt (map fst (filter p (combine (seq a (List.length l)) l)))
  /\ Forall (fun i => a <= i < a + List.length l)
            (map fst (filter p (combine (seq a (List.length l)) l))).
Proof.
  induction l as [|x l IH]; intros a; simpl; [split; constructor|].
  destruct (IH (S a)) as [Hs Hb].
  assert (Hb' : Forall (fun i => a <= i < a + S (List.length l))
                       (map fst (filter p (combine (seq (S a) (List.length l)) l)))).
  { eapply Forall_impl; [|exact Hb]. simpl. intros i Hi. lia. }
  destruct (p (a, x)); simpl; [|now split].
  split.
  - constructor; [assumption|].
    eapply Forall_impl; [|exact Hb]. simpl. intros i Hi. lia.
  - constructor; [lia | assumption].
Qed.

Lemma sorted_lt_nodup l : StronglySorted lt l -> NoDup l.
Proof.
  induction 1 as [|x l Hs IH Hx]; constructor; [|assumption].
  intros Hin. rewrite Forall_forall in Hx. specialize (Hx x Hin). lia.
Qed.

(** X4. The cleaned table keeps the rows in file order under their labels
    of the input: the labels increase strictly, none occurs twice, each
    is a position of the input, and the file has no more records than the
    input has rows. *)
Theorem rows_in_file_order t out :
  script parse polarity fmt t = Ok out ->
  StronglySorted lt (labels (frame out))
  /\ NoDup (labels (frame out))
  /\ Forall (fun i => i < List.length (t_rows t)) (labels (frame out))
  /\ List.length (records (cleaned_data out)) = List.length (labels (frame out))
  /\ List.length (records (cleaned_data out)) <= List.length (t_rows t).
Proof.
  intros H. apply script_ok in H. destruct H as (Hf & _ & _ & Hd).
  assert (E : labels (frame out) = map fst (kept_rows parse t)).
  { rewrite Hf. unfold labels, final_frame. cbn [rows]. now rewrite map_map. }
  destruct (kept_labels_sorted (fun ir => keeps parse (snd ir)) (t_rows t) 0)
    as [Hs Hb].
  fold (rows (read_csv t)) in Hs, Hb.
  change (filter (fun ir => keeps parse (snd ir)) (rows (read_csv t)))
    with (kept_rows parse t) in Hs, Hb.
  assert (Hl : List.length (records (cleaned_data out))
               = List.length (labels (frame out))).
  { rewrite Hd. unfold to_csv, labels. cbn [records]. now rewrite !length_map. }
  rewrite E in *. repeat split; try assumption.
  - now apply sorted_lt_nodup.
  - eapply Forall_impl; [|exact Hb]. simpl. intros i Hi. lia.
  - rewrite Hl, length_map. unfold kept_rows.
    etransitivity; [apply filter_length_le|].
    unfold read_csv. cbn [rows]. rewrite length_combine, length_seq. lia.
Qed.

Lemma set_cell_id c v (r : row) : r c = v -> same_cells (set_cell c v r) r.
Proof.
  intros H c'. unfold set_cell. destruct (String.eqb c' c) eqn:E; [|reflexivity].
  apply String.eqb_eq in E. now subst.
Qed.

(** X5. Every row of the cleaned table passes the four filters again and
    is left as it is by a second cleaning: it holds a brand, numbers in its
    two prices and its rating with the retail price above zero, strings in
    its category and its description, and the polarity of that description
    as its sentiment. *)
Theorem cleaned_rows_are_clean t out i r :
  script parse polarity fmt t = Ok out ->
  In (i, r) (rows (frame out)) ->
  keeps parse r = true
  /\ same_cells (clean_row parse r) r
  /\ (exists R D Q,
        r "retail_price" = Num R /\ r "discounted_price" = Num D
        /\ r "product_rating" = Num Q
        /\ F64.is_nan R = false /\ F64.ltb F64.zero R = true
        /\ F64.is_nan D = false /\ F64.is_nan Q = false)
  /\ isna (r "brand") = false
  /\ (exists cat desc,
        r "product_category_tree" = Str cat /\ r "description" = Str desc
        /\ r "sentiment" = Num (polarity desc)).
Proof.
  intros H Hin.
  destruct (output_row _ _ _ _ _ _ _ H Hin) as (r0 & _ & Hk & [(s & Hs) Hd] & ->).
  assert (Hk' := Hk). apply keeps_true_iff in Hk'.
  destruct Hk' as (Hb & Hr & Hp & Hdp & Hq).
  assert (Hdesc : exists desc,
             (if isna (r0 "description") then Str "" else r0 "description") = Str desc).
  { destruct Hd as [Hd | (d & Hd)]; [rewrite Hd; eauto | rewrite Hd; simpl; eauto]. }
  destruct Hdesc as (desc & Hdesc).
  split; [exact Hk|]. split; [|split; [|split]].
  - intros c. unfold clean_row, coerce_cell, fill_description.
    rewrite !set_cell_id; try reflexivity.
    cbn. now rewrite Hdesc.
  - exists (to_numeric parse (r0 "retail_price")),
           (to_numeric parse (r0 "discounted_price")),
           (to_numeric parse (r0 "product_rating")).
    repeat split; assumption.
  - exact Hb.
  - destruct (category_root_str s) as (cat & Hcat).
    exists cat, desc. split; [|split].
    + rewrite final_category, Hs, Hcat. reflexivity.
    + rewrite final_description. exact Hdesc.
    + change (final_row parse polarity r0 "sentiment")
        with (value (sentiment polarity
                       (if isna (r0 "description") then Str "" else r0 "description"))).
      now rewrite Hdesc.
Qed.

Lemma add_column_new c l : mem c l = false -> add_column c l = l ++ [c].
Proof. unfold add_column. now intros ->. Qed.

Lemma add_column_nodup c l : NoDup l -> NoDup (add_column c l).
Proof.
  intros H. unfold add_column. destruct (mem c l) eqn:M; [assumption|].
  apply NoDup_app; [assumption | repeat constructor; intros [] |].
  intros x Hx [<-|[]]. apply mem_true_iff in Hx. congruence.
Qed.

Lemma mem_false_iff c l : mem c l = false <-> ~ In c l.
Proof.
  rewrite <- mem_true_iff. destruct (mem c l); split; congruence.
Qed.

(** X6. When the input has no column named like a derived one, the header
    of the written file is the input header without the eight unused
    columns, in its order, followed by [description_length],
    [discount_percentage] and [sentiment]. *)
Theorem header_order t out :
  script parse polarity fmt t = Ok out ->
  (forall c, In c derived_columns -> ~ In c (t_columns t)) ->
  header (cleaned_data out) = kept_columns (t_columns t) ++ derived_columns.
Proof.
  intros H Hn. apply script_ok in H. destruct H as (Hf & _ & _ & ->).
  rewrite Hf. cbn [to_csv header final_frame columns app].
  assert (K : forall c, In c derived_columns ->
                        mem c (kept_columns (t_columns t)) = false).
  { intros c Hc. rewrite mem_kept.
    assert (mem c (t_columns t) = false) as -> by (apply mem_false_iff; auto).
    reflexivity. }
  unfold final_columns.
  rewrite (add_column_new "description_length") by (apply K; simpl; auto).
  rewrite (add_column_new "discount_percentage")
    by (rewrite mem_app, K by (simpl; auto); reflexivity).
  rewrite (add_column_new "sentiment")
    by (rewrite !mem_app, K by (simpl; auto); reflexivity).
  now rewrite <- !app_assoc.
Qed.

(** X7. A header without repeated labels gives a written file without
    repeated labels, also when the input already has a column named like
    a derived one. *)
Theorem header_has_no_duplicates t out :
  script parse polarity fmt t = Ok out ->
  NoDup (t_columns t) ->
  NoDup (header (cleaned_data out)).
Proof.
  intros H Hn. apply script_ok in H. destruct H as (Hf & _ & _ & ->).
  rewrite Hf. cbn [to_csv header final_frame columns app].
  unfold final_columns, kept_columns.
  repeat apply add_column_nodup. now apply NoDup_filter.
Qed.

Lemma set_cell_other c d v (r : row) : c <> d -> set_cell d v r c = r c.
Proof.
  intros H. unfold set_cell. destruct (String.eqb c d) eqn:E; [|reflexivity].
  apply String.eqb_eq in E. contradiction.
Qed.

(** X8. The script changes no cell outside the columns it assigns: in a
    row of the cleaned table every other column holds the cell of the
    input row, a price or rating that was a number is that number, and a
    description that was not missing is unchanged. *)
Theorem other_cells_unchanged t out i r r_in :
  script parse polarity fmt t = Ok out ->
  In (i, r) (rows (frame out)) ->
  nth_error (t_rows t) i = Some r_in ->
  (forall c, ~ In c touched_columns -> r c = r_in c)
  /\ (forall c x, In c ["retail_price"; "discounted_price"; "product_rating"] ->
        r_in c = Num x -> r c = Num x)
  /\ (isna (r_in "description") = false -> r "description" = r_in "description").
Proof.
  intros H Hin Hn.
  destruct (output_row _ _ _ _ _ _ _ H Hin) as (r0 & Hn0 & _ & _ & ->).
  assert (r0 = r_in) by congruence. subst r0.
  split; [|split].
  - intros c Hc. unfold touched_columns, derived_columns in Hc. simpl in Hc.
    unfold final_row, sentiment_row, discount_row, length_row, categorise_row,
      clean_row, coerce_cell, fill_description.
    rewrite !set_cell_other; [reflexivity | | | | | | | |];
      intros ->; apply Hc; auto 10.
  - intros c x Hc Hx. simpl in Hc.
    destruct Hc as [<-|[<-|[<-|[]]]]; cbn; now rewrite Hx.
  - intros Hd. rewrite final_description. now rewrite Hd.
Qed.

(** X9. The values an input row holds under the name of a derived column
    do not reach the cleaned table: the script overwrites them. *)
Theorem derived_columns_overwritten r c v :
  In c derived_columns ->
  same_cells (final_row parse polarity (set_cell c v r))
             (final_row parse polarity r).
Proof.
  intros Hc c'. simpl in Hc.
  unfold final_row, sentiment_row, discount_row, length_row, categorise_row,
    clean_row, coerce_cell, fill_description.
  destruct Hc as [<-|[<-|[<-|[]]]]; unfold set_cell; cbn;
    repeat match goal with
           | |- context [String.eqb c' ?s] => destruct (String.eqb c' s) eqn:?
           end;
    reflexivity.
Qed.

(** X10. The script cannot be run on the file it wrote: the unused
    columns are gone from it, and dropping them again ends the run with a
    [KeyError] for one of them. *)
Theorem rerun_on_cleaned_data_raises t out t' :
  script parse polarity fmt t = Ok out ->
  t_columns t' = header (cleaned_data out) ->
  exists c, script parse polarity fmt t' = Err (KeyError c)
            /\ In c unused_columns.
Proof.
  intros H Hc. apply script_ok in H. destruct H as (Hf & _ & _ & Hd).
  rewrite Hd, Hf in Hc. cbn [to_csv header final_frame columns app] in Hc.
  assert (Hu : forallb (fun c => mem c (columns (read_csv t'))) unused_columns = false).
  { change (columns (read_csv t')) with (t_columns t'). rewrite Hc.
    cbn [unused_columns forallb]. unfold final_columns.
    rewrite !mem_add_column, mem_kept. cbn.
    now rewrite andb_false_r. }
  destruct (require_all_err _ _ Hu) as (c & E & Hin & _).
  exists c. split; [|assumption].
  unfold script, clean, drop. rewrite E. reflexivity.
Qed.

(** The discount of a row of the cleaned table, from its own prices. *)
Lemma output_discount t out i r R D :
  script parse polarity fmt t = Ok out ->
  In (i, r) (rows (frame out)) ->
  r "retail_price" = Num R ->
  r "discounted_price" = Num D ->
  r "discount_percentage" = Num (F64.mul (F64.div (F64.sub R D) R) F64.hundred)
  /\ F64.ltb F64.zero R = true /\ F64.is_nan D = false.
Proof.
  intros H Hin HR HD.
  destruct (output_row _ _ _ _ _ _ _ H Hin) as (r0 & _ & Hk & _ & ->).
  rewrite final_retail_price in HR. rewrite final_discounted_price in HD.
  injection HR as <-. injection HD as <-.
  apply keeps_true_iff in Hk. destruct Hk as (_ & _ & Hp & Hd & _).
  rewrite final_discount_percentage. auto.
Qed.

(** X11. A row sold at its retail price, the price being finite, has the
    discount zero. *)
Theorem discount_of_equal_prices t out i r R :
  script parse polarity fmt t = Ok out ->
  In (i, r) (rows (frame out)) ->
  r "retail_price" = Num R ->
  r "discounted_price" = Num R ->
  F64.is_finite R = true ->
  r "discount_percentage" = Num F64.zero.
Proof.
  intros H Hin HR HD HF.
  destruct (output_discount _ _ _ _ _ _ H Hin HR HD) as (-> & Hp & _).
  destruct (positive_cases R Hp) as [-> | (m & e & ->)]; [discriminate HF|].
  now rewrite sub_self.
Qed.

(** X12. A row whose discounted price is zero, the retail price being
    finite, has the discount 100 exactly. *)
Theorem discount_of_free_item t out i r R D :
  script parse polarity fmt t = Ok out ->
  In (i, r) (rows (frame out)) ->
  r "retail_price" = Num R ->
  r "discounted_price" = Num D ->
  F64.is_finite R = true ->
  F64.is_zero D = true ->
  r "discount_percentage" = Num (F64.of_Z 100).
Proof.
  intros H Hin HR HD HF HZ.
  destruct (output_discount _ _ _ _ _ _ H Hin HR HD) as (-> & Hp & _).
  destruct (positive_cases R Hp) as [-> | (m & e & ->)]; [discriminate HF|].
  destruct D as [s| | |]; try discriminate HZ.
  change (F64.sub (S754_finite false m e) (S754_zero s))
    with (S754_finite false m e).
  now rewrite div_self.
Qed.


(** X14. The derived category of a row of the cleaned table never holds
    the delimiter, and its length is the position of the first delimiter
    of the input path, or the length of a path without one, less two: a
    path whose first delimiter is within its first two characters gives
    the empty category. *)
Theorem derived_category_shape t out i r r_in :
  script parse polarity fmt t = Ok out ->
  In (i, r) (rows (frame out)) ->
  nth_error (t_rows t) i = Some r_in ->
  exists s cat,
    r_in "product_category_tree" = Str s
    /\ r "product_category_tree" = Str cat
    /\ find ">>" cat = None
    /\ String.length cat
       = match find ">>" s with
         | Some n => n
         | None => String.length s
         end - 2.
Proof.
  intros H Hin Hn.
  destruct (output_row _ _ _ _ _ _ _ H Hin) as (r0 & Hn0 & _ & [(s & Hs) _] & ->).
  assert (r0 = r_in) by congruence. subst r0.
  destruct (category_root_shape s) as (cat & Hc & Hf & Hl).
  exists s, cat. repeat split; try assumption.
  now rewrite final_category, Hs, Hc.
Qed.

Lemma Forall2_map_same {A B C : Type} (R : B -> C -> Prop) (f : A -> B) (g : A -> C) l :
  Forall (fun x => R (f x) (g x)) l -> Forall2 R (map f l) (map g l).
Proof. induction 1; simpl; constructor; assumption. Qed.

(** X15. The category step is not idempotent: run once more on the
    cleaned table it raises nothing and removes the first two characters
    of every category it had derived. *)
Theorem categorise_again_strips t out :
  script parse polarity fmt t = Ok out ->
  exists df,
    categorise (frame out) = Ok df
    /\ Forall2 (fun v v' => exists cat, v = Str cat
                                        /\ v' = Str (Py.slice_from 2 cat))
               (column "product_category_tree" (frame out))
               (column "product_category_tree" df).
Proof.
  intros H.
  assert (Hrows : Forall (fun ir => exists cat,
                            snd ir "product_category_tree" = Str cat
                            /\ category_root (snd ir "product_category_tree")
                               = Ok (Str (Py.slice_from 2 cat)))
                         (rows (frame out))).
  { apply Forall_forall. intros [i r] Hin. simpl.
    destruct (output_row _ _ _ _ _ _ _ H Hin) as (r0 & _ & _ & [(s & Hs) _] & ->).
    destruct (category_root_shape s) as (cat & Hc & Hf & _).
    exists cat. rewrite final_category, Hs, Hc. simpl. split; [reflexivity|].
    now apply category_root_whole. }
  destruct (script_inv _ _ _ _ _ H) as [Hc _].
  apply script_ok in H. destruct H as (Hf & _).
  unfold categorise.
  rewrite require_ok.
  2:{ rewrite Hf. cbn [final_frame columns]. unfold final_columns.
      rewrite !mem_add_column, mem_kept.
      unfold has_columns, script_columns in Hc. rewrite forallb_app in Hc.
      apply andb_prop in Hc. destruct Hc as [_ Hc]. cbn [forallb] in Hc.
      rewrite andb_true_r in Hc. now rewrite Hc. }
  cbn [bind]. rewrite assign_ok.
  2:{ eapply Forall_impl; [|exact Hrows]. intros ir (cat & _ & E). eauto. }
  eexists. split; [reflexivity|].
  unfold column. cbn [rows]. rewrite map_map.
  apply Forall2_map_same. eapply Forall_impl; [|exact Hrows].
  intros ir (cat & E1 & E2). exists cat. split; [assumption|].
  cbn [fst snd]. unfold set_cell. rewrite String.eqb_refl.
  unfold row in *. now rewrite E2.
Qed.

Lemma keyed_firstn n : forall l, keyed l -> keyed (firstn n l).
Proof.
  induction n as [|n IH]; intros l Hl; [apply keyed_nil|].
  destruct l as [|a l]; [apply keyed_nil|].
  destruct Hl as [Hn Hk]. simpl in Hn. inversion Hn as [|? ? Hna Hn']; subst.
  assert (Hl' : keyed l).
  { split; [assumption|]. intros x y Hx Hy. apply Hk; now right. }
  destruct (IH l Hl') as [Hn1 Hk1]. split.
  - simpl. constructor; [|assumption].
    intros Hin. apply Hna. apply in_map_iff in Hin.
    destruct Hin as (x & E & Hx). apply in_map_iff. exists x.
    split; [assumption | eapply in_firstn; eauto].
  - intros x y Hx Hy. apply Hk.
    + apply (in_firstn (S n) (a :: l)). exact Hx.
    + apply (in_firstn (S n) (a :: l)). exact Hy.
Qed.

Lemma present_all col :
  Forall (fun v => isna v = false) col -> present col = List.length col.
Proof.
  unfold present. induction 1 as [|v col Hv _ IH]; simpl; [reflexivity|].
  rewrite Hv. simpl. now rewrite IH.
Qed.

(** X16. A ranking lists no value twice, and a ranking of fewer than ten
    entries is complete: its counts add up to the number of rows of the
    cleaned table. *)
Theorem rankings_cover_the_table t out :
  script parse polarity fmt t = Ok out ->
  keyed (category_counts out) /\ keyed (brand_counts out)
  /\ (List.length (category_counts out) < 10 ->
      list_sum (map snd (category_counts out)) = List.length (rows (frame out)))
  /\ (List.length (brand_counts out) < 10 ->
      list_sum (map snd (brand_counts out)) = List.length (rows (frame out))).
Proof.
  intros H.
  assert (Hcells : forall c, In c ["product_category_tree"; "brand"] ->
                     Forall (fun v => isna v = false) (column c (frame out))).
  { intros c Hc. unfold column. apply Forall_forall. intros v Hv.
    apply in_map_iff in Hv. destruct Hv as ([i r] & <- & Hin). simpl.
    destruct (output_row _ _ _ _ _ _ _ H Hin) as (r0 & _ & Hk & [(s & Hs) _] & ->).
    simpl in Hc. destruct Hc as [<-|[<-|[]]].
    - rewrite final_category, Hs.
      destruct (category_root_str s) as (s' & ->). reflexivity.
    - rewrite final_brand. now apply keeps_true_iff in Hk. }
  assert (Hlen : forall c, List.length (column c (frame out))
                           = List.length (rows (frame out))).
  { intros c. unfold column. apply length_map. }
  apply script_ok in H. destruct H as (_ & -> & -> & _).
  split; [apply keyed_firstn, value_counts_total|].
  split; [apply keyed_firstn, value_counts_total|].
  split; intros Hs; rewrite (head_short _ _ Hs);
    destruct (value_counts_total (column "product_category_tree" (frame out)))
      as [_ E1];
    destruct (value_counts_total (column "brand" (frame out))) as [_ E2].
  - rewrite E1, present_all by (apply Hcells; simpl; auto). apply Hlen.
  - rewrite E2, present_all by (apply Hcells; simpl; auto). apply Hlen.
Qed.


End Further.

(** ** The further properties on the samples *)

Lemma missing_column_raises_witness :
  exists c,
    script Sample.parse Sample.polarity Sample.fmt Sample.unrated = Err (KeyError c)
    /\ In c script_columns /\ ~ In c (t_columns Sample.unrated).
Proof.
  apply (missing_column_raises Sample.parse Sample.polarity Sample.fmt Sample.unrated).
  vm_compute. reflexivity.
Defined.

Lemma missing_category_raises_witness :
  script Sample.parse Sample.polarity Sample.fmt Sample.uncategorised
  = Err AttributeError.
Proof.
  apply (missing_category_raises Sample.parse Sample.polarity Sample.fmt
           Sample.uncategorised 6
           (set_cell "product_category_tree" Sample.missing Sample.shorts) F64.nan).
  - vm_compute. reflexivity.
  - reflexivity.
  - vm_compute. reflexivity.
  - reflexivity.
Defined.

Lemma rows_in_file_order_witness :
  let out := Sample.report_of Sample.catalogue in
  StronglySorted lt (labels (frame out))
  /\ NoDup (labels (frame out))
  /\ Forall (fun i => i < List.length (t_rows Sample.catalogue)) (labels (frame out))
  /\ List.length (records (cleaned_data out)) = List.length (labels (frame out))
  /\ List.length (records (cleaned_data out)) <= List.length (t_rows Sample.catalogue).
Proof.
  apply (rows_in_file_order Sample.parse Sample.polarity Sample.fmt Sample.catalogue).
  vm_compute. reflexivity.
Defined.

(** The labels of the sample: the rows 1 and 2 are dropped, the others
    keep their positions. *)
Lemma sample_labels :
  labels (frame (Sample.report_of Sample.catalogue)) = [0; 3; 4; 5].
Proof. vm_compute. reflexivity. Qed.

Lemma cleaned_rows_are_clean_witness :
  let r := final_row Sample.parse Sample.polarity Sample.no_description in
  keeps Sample.parse r = true
  /\ same_cells (clean_row Sample.parse r) r
  /\ (exists R D Q,
        r "retail_price" = Num R /\ r "discounted_price" = Num D
        /\ r "product_rating" = Num Q
        /\ F64.is_nan R = false /\ F64.ltb F64.zero R = true
        /\ F64.is_nan D = false /\ F64.is_nan Q = false)
  /\ isna (r "brand") = false
  /\ (exists cat desc,
        r "product_category_tree" = Str cat /\ r "description" = Str desc
        /\ r "sentiment" = Num (Sample.polarity desc)).
Proof.
  apply (cleaned_rows_are_clean Sample.parse Sample.polarity Sample.fmt
           Sample.catalogue (Sample.report_of Sample.catalogue) 3).
  - vm_compute. reflexivity.
  - right. left. reflexivity.
Defined.

Lemma header_order_witness :
  header (cleaned_data (Sample.report_of Sample.catalogue))
  = kept_columns (t_columns Sample.catalogue) ++ derived_columns.
Proof.
  apply (header_order Sample.parse Sample.polarity Sample.fmt Sample.catalogue).
  - vm_compute. reflexivity.
  - intros c Hc Hin. vm_compute in Hc, Hin.
    repeat (destruct Hc as [<-|Hc];
            [repeat (destruct Hin as [Hin|Hin]; [discriminate Hin|]); exact Hin|]).
    exact Hc.
Defined.

Lemma header_has_no_duplicates_witness :
  NoDup (header (cleaned_data (Sample.report_of Sample.catalogue))).
Proof.
  apply (header_has_no_duplicates Sample.parse Sample.polarity Sample.fmt
           Sample.catalogue).
  - vm_compute. reflexivity.
  - vm_compute.
    repeat (constructor;
            [intros Hin; repeat (destruct Hin as [Hin|Hin]; [discriminate Hin|]);
             exact Hin|]).
    constructor.
Defined.

Lemma other_cells_unchanged_witness :
  let r := final_row Sample.parse Sample.polarity Sample.shorts in
  (forall c, ~ In c touched_columns -> r c = Sample.shorts c)
  /\ (forall c x, In c ["retail_price"; "discounted_price"; "product_rating"] ->
        Sample.shorts c = Num x -> r c = Num x)
  /\ (isna (Sample.shorts "description") = false ->
      r "description" = Sample.shorts "description").
Proof.
  apply (other_cells_unchanged Sample.parse Sample.polarity Sample.fmt
           Sample.catalogue (Sample.report_of Sample.catalogue) 0).
  - vm_compute. reflexivity.
  - left. reflexivity.
  - reflexivity.
Defined.

Lemma derived_columns_overwritten_witness :
  same_cells
    (final_row Sample.parse Sample.polarity
               (set_cell "sentiment" (Str "old") Sample.shorts))
    (final_row Sample.parse Sample.polarity Sample.shorts).
Proof.
  apply (derived_columns_overwritten Sample.parse Sample.polarity).
  simpl. auto.
Defined.

Lemma rerun_on_cleaned_data_raises_witness :
  exists c,
    script Sample.parse Sample.polarity Sample.fmt Sample.reread = Err (KeyError c)
    /\ In c unused_columns.
Proof.
  apply (rerun_on_cleaned_data_raises Sample.parse Sample.polarity Sample.fmt
           Sample.catalogue (Sample.report_of Sample.catalogue) Sample.reread).
  - vm_compute. reflexivity.
  - reflexivity.
Defined.

Lemma discount_of_equal_prices_witness :
  final_row Sample.parse Sample.polarity Sample.full_price "discount_percentage"
  = Num F64.zero.
Proof.
  apply (discount_of_equal_prices Sample.parse Sample.polarity Sample.fmt
           Sample.offers (Sample.report_of Sample.offers) 0 _ (F64.of_Z 300)).
  - vm_compute. reflexivity.
  - left. reflexivity.
  - reflexivity.
  - reflexivity.
  - reflexivity.
Defined.

Lemma discount_of_free_item_witness :
  final_row Sample.parse Sample.polarity Sample.free_item "discount_percentage"
  = Num (F64.of_Z 100).
Proof.
  apply (discount_of_free_item Sample.parse Sample.polarity Sample.fmt
           Sample.offers (Sample.report_of Sample.offers) 1 _
           (F64.of_Z 300) (F64.of_Z 0)).
  - vm_compute. reflexivity.
  - right. left. reflexivity.
  - reflexivity.
  - reflexivity.
  - reflexivity.
  - reflexivity.
Defined.


Lemma derived_category_shape_witness :
  exists s cat,
    Sample.flat_path "product_category_tree" = Str s
    /\ final_row Sample.parse Sample.polarity Sample.flat_path "product_category_tree"
       = Str cat
    /\ find ">>" cat = None
    /\ String.length cat
       = match find ">>" s with
         | Some n => n
         | None => String.length s
         end - 2.
Proof.
  apply (derived_category_shape Sample.parse Sample.polarity Sample.fmt
           Sample.catalogue (Sample.report_of Sample.catalogue) 4).
  - vm_compute. reflexivity.
  - right. right. left. reflexivity.
  - reflexivity.
Defined.

Lemma categorise_again_strips_witness :
  exists df,
    categorise (frame (Sample.report_of Sample.catalogue)) = Ok df
    /\ Forall2 (fun v v' => exists cat, v = Str cat
                                        /\ v' = Str (Py.slice_from 2 cat))
               (column "product_category_tree"
                       (frame (Sample.report_of Sample.catalogue)))
               (column "product_category_tree" df).
Proof.
  apply (categorise_again_strips Sample.parse Sample.polarity Sample.fmt
           Sample.catalogue).
  vm_compute. reflexivity.
Defined.

Lemma rankings_cover_the_table_witness :
  let out := Sample.report_of Sample.catalogue in
  keyed (category_counts out) /\ keyed (brand_counts out)
  /\ (List.length (category_counts out) < 10 ->
      list_sum (map snd (category_counts out)) = List.length (rows (frame out)))
  /\ (List.length (brand_counts out) < 10 ->
      list_sum (map snd (brand_counts out)) = List.length (rows (frame out))).
Proof.
  apply (rankings_cover_the_table Sample.parse Sample.polarity Sample.fmt
           Sample.catalogue).
  vm_compute. reflexivity.
Defined.

(** A file whose description column holds numbers only and whose one
    record has no brand: no row is left, and the accessor of line 95
    raises on the numeric column. *)
Lemma numeric_description_raises : Sample.run Sample.numbered = Err AttributeError.
Proof. vm_compute. reflexivity. Qed.

(** A file whose description column holds no value: line 29 fills it, and
    line 95 reads a column of strings. *)
Lemma filled_description_runs :
  Sample.run Sample.undescribed = Ok (Sample.report_of Sample.undescribed).
Proof. vm_compute. reflexivity. Qed.
